(** * auth-proxy: a shallow embedding of [src/app.js]

    The proxy keeps four YAML documents (routes, users, roles, tokens),
    compiles them into lookup indices, and serves requests against the
    current indices.  This development embeds the route matcher, the
    authenticator, the authorizer, the request dispatcher, the validators,
    the index builders, the reload procedure, start-up and the numeric
    option defaults, and states the properties of the specification about
    them, followed by further properties read off the code.

    Modelling conventions.
    - A JavaScript object used as a dictionary is a [gmap string _] of its
      own properties; [undefined] is [None].
    - A [throw] is the [Throw] constructor of [Res]; reading a property of
      [null] or [undefined] throws a [TypeError].
    - Records follow the data model of the YAML documents; an optional key is
      an [option] field. *)

From Stdlib Require Import ZArith Lia Ascii String.
From stdpp Require Import base option list strings gmap fin_maps.

Open Scope string_scope.
Open Scope Z_scope.

(** ** Exceptions and results *)

Inductive Exn :=
| TypeError (msg : string)
| SyntaxError (msg : string)
| IOError (msg : string)
| ConfigError (msg : string).

Definition exn_message (e : Exn) : string :=
  match e with
  | TypeError m | SyntaxError m | IOError m | ConfigError m => m
  end.

Inductive Res (A : Type) :=
| Ok (a : A)
| Throw (e : Exn).
Arguments Ok {A} a.
Arguments Throw {A} e.

Definition Res_bind {A B} (r : Res A) (k : A -> Res B) : Res B :=
  match r with
  | Ok a => k a
  | Throw e => Throw e
  end.

Definition Res_map {A B} (f : A -> B) (r : Res A) : Res B :=
  match r with
  | Ok a => Ok (f a)
  | Throw e => Throw e
  end.

Notation "x <- r ;; k" := (Res_bind r (fun x => k))
  (at level 100, r at next level, right associativity).

(** ** JavaScript truthiness and property access *)

(** An object reference (or [undefined]) in a condition. *)
Definition truthy {A} (o : option A) : bool :=
  match o with Some _ => true | None => false end.

(** A string in a condition: only the empty string is falsy. *)
Definition truthy_str (s : string) : bool :=
  negb (String.eqb s "").

(** An optional boolean (or the constant [true] stored under a key) in a
    condition. *)
Definition truthy_bool (o : option bool) : bool :=
  match o with Some b => b | None => false end.

(** A timestamp (or [null]) in a condition: [null] and [0] are falsy.
    Timestamps are embedded as integers; the source only takes their
    maximum, compares them and tests them for truthiness. *)
Definition truthy_num (o : option Z) : bool :=
  match o with Some z => negb (z =? 0) | None => false end.

(** [o[k]] where [o] may be [null] or [undefined]. *)
Definition prop {V} (o : option (gmap string V)) (k : string) : Res (option V) :=
  match o with
  | Some m => Ok (m !! k)
  | None => Throw (TypeError "Cannot read properties of undefined")
  end.

(** [o.f] where [o] may be [undefined]. *)
Definition field {A B} (o : option A) (f : A -> B) : Res B :=
  match o with
  | Some a => Ok (f a)
  | None => Throw (TypeError "Cannot read properties of undefined")
  end.

(** ** Data model *)

Record Route := {
  route_path : string;
  route_methods : option (list string);
  route_hosts : option (list string);
  route_proxy_target : string;
  route_resource : option string;
  route_anonymous : option bool
}.

Record Token := {
  token_token : string;
  token_user : string
}.

Record User := {
  user_name : string;
  user_roles : option (list string);
  user_admin : option bool
}.

Record Grant := {
  grant_resource : string;
  grant_methods : option (list string)
}.

Record Role := {
  role_name : string;
  role_grants : list Grant
}.

(** [{method: true}], [{resource: {method: true}}] and
    [{userName: {resource: {method: true}}}]. *)
Abbreviation MethodMap := (gmap string bool).
Abbreviation ResourceMap := (gmap string (gmap string bool)).
Abbreviation GrantIndex := (gmap string (gmap string (gmap string bool))).

(** The fields of [this] that the modelled methods read and write.  All
    of them are [null] after the constructor, except [isReloading]. *)
Record App := {
  authHeaders : list string;
  routes : option (list Route);
  users : option (list User);
  roles : option (list Role);
  tokens : option (list Token);
  tokenIndex : option (gmap string string);
  roleIndex : option (gmap string Role);
  userIndex : option (gmap string User);
  grantIndex : option GrantIndex;
  lastReloadTime : option Z;
  lastReloadMTime : option Z;
  lastReloadErrorTime : option Z;
  isReloading : bool
}.

(** ** Authorizer: [App.authorize] *)

(** The five [return] statements of [authorize], in source order. *)
Inductive AuthorizeExit :=
| ExitAdmin
| ExitNoUserGrants
| ExitNoResourceGrants
| ExitWildcard
| ExitMethod.

(** [authorize] together with the [return] statement that produced the
    answer. *)
Definition authorize_exit (app : App) (user resource method : string)
  : Res (AuthorizeExit * bool) :=
  u <- prop (userIndex app) user ;;
  isAdmin <- (if truthy u
              then u' <- prop (userIndex app) user ;;
                   a <- field u' user_admin ;;
                   Ok (truthy_bool a)
              else Ok false) ;;
  if isAdmin then Ok (ExitAdmin, true) else
  g <- prop (grantIndex app) user ;;
  if negb (truthy g) then Ok (ExitNoUserGrants, false) else
  g1 <- prop (grantIndex app) user ;;
  r <- prop g1 resource ;;
  if negb (truthy r) then Ok (ExitNoResourceGrants, false) else
  g2 <- prop (grantIndex app) user ;;
  r2 <- prop g2 resource ;;
  w <- prop r2 "*" ;;
  if truthy_bool w then Ok (ExitWildcard, true) else
  g3 <- prop (grantIndex app) user ;;
  r3 <- prop g3 resource ;;
  v <- prop r3 method ;;
  Ok (ExitMethod, truthy_bool v).

Definition authorize (app : App) (user resource method : string) : Res bool :=
  Res_map snd (authorize_exit app user resource method).

(** ** Authenticator: [App.authenticate] *)

Record Request := {
  req_method : string;
  req_url : string;
  req_headers : gmap string string
}.

Fixpoint authenticate_loop (tokenIdx : option (gmap string string))
    (headers : gmap string string) (names : list string) : Res (option string) :=
  match names with
  | [] => Ok None
  | headerName :: rest =>
      match headers !! headerName with
      | Some value =>
          if truthy_str value
          then prop tokenIdx value
          else Ok None
      | None => authenticate_loop tokenIdx headers rest
      end
  end.

Definition authenticate (app : App) (req : Request) : Res (option string) :=
  authenticate_loop (tokenIndex app) (req_headers req) (authHeaders app).

(** ** Regular expressions

    [RegExp], [RegExp.prototype.test] and [String.prototype.match] belong
    to the JavaScript runtime, not to the repository; the embedding is
    parametric in them.  The constructor may throw a [SyntaxError]. *)

Class RegexEngine := {
  Regex : Type;
  Matches : Type;
  RegExp : string -> Res Regex;
  regex_test : Regex -> string -> bool;
  string_match : string -> Regex -> option Matches
}.

(** Generic [for ... of] / [forEach] with a body that may throw. *)
Fixpoint forEach {A} (body : A -> Res unit) (l : list A) : Res unit :=
  match l with
  | [] => Ok tt
  | x :: rest => _ <- body x ;; forEach body rest
  end.

(** [key in index]. *)
Definition has_key {V} (index : gmap string V) (key : string) : bool :=
  truthy (index !! key).

Section Routing.
Context `{RegexEngine}.

(** *** Route matcher: [App.getRoute] *)

(** The inner [for (var hostPattern of route.hosts)] loop; the result is
    the final value of [isHostMatch]. *)
Fixpoint getRoute_hosts (hosts : list string) (host : string) : Res bool :=
  match hosts with
  | [] => Ok false
  | hostPattern :: rest =>
      hostRegex <- RegExp hostPattern ;;
      if regex_test hostRegex host
      then Ok true
      else getRoute_hosts rest host
  end.

Fixpoint getRoute_loop (rs : list Route) (method path host : string)
  : Res (option (Route * Matches)) :=
  match rs with
  | [] => Ok None
  | route :: rest =>
      let isMethodMatch :=
        match route_methods route with
        | None => true
        | Some methods => bool_decide (method ∈ methods)
        end in
      if negb isMethodMatch then getRoute_loop rest method path host else
      isHostMatch <- match route_hosts route with
                     | None => Ok true
                     | Some hosts => getRoute_hosts hosts host
                     end ;;
      if negb isHostMatch then getRoute_loop rest method path host else
      pathRegex <- RegExp (route_path route) ;;
      match string_match path pathRegex with
      | Some matches => Ok (Some (route, matches))
      | None => getRoute_loop rest method path host
      end
  end.

(** [host] is [None] when the request carries no [Host] header
    ([typeof host != 'string']). *)
Definition getRoute (app : App) (method path : string) (host : option string)
  : Res (option (Route * Matches)) :=
  let host := match host with Some h => h | None => "" end in
  match routes app with
  | Some rs => getRoute_loop rs method path host
  | None => Throw (TypeError "this.routes is not iterable")
  end.

(** *** Validators

    The [typeof] and [Array.isArray] tests are discharged by the record
    types; what remains are the non-emptiness and regex tests. *)

Definition validateHost (hostPattern : string) : Res unit :=
  if negb (truthy_str hostPattern)
  then Throw (ConfigError "host must be a non-empty string")
  else match RegExp hostPattern with
       | Ok _ => Ok tt
       | Throw err => Throw (ConfigError ("Invalid regex for host: " ++ exn_message err))
       end.

Definition validateRoute (route : Route) : Res unit :=
  if negb (truthy_str (route_path route))
  then Throw (ConfigError "route.path must be a non-empty string") else
  _ <- match RegExp (route_path route) with
       | Ok _ => Ok tt
       | Throw err =>
           Throw (ConfigError ("Invalid regex for route.path: " ++ exn_message err))
       end ;;
  if negb (truthy_str (route_proxy_target route))
  then Throw (ConfigError "route.proxy.target must be a non-empty string") else
  match route_hosts route with
  | Some hosts => forEach validateHost hosts
  | None => Ok tt
  end.

End Routing.

Definition validateToken (token : Token) : Res unit :=
  if negb (truthy_str (token_token token))
  then Throw (ConfigError "token.token must be a non-empty string") else
  if negb (truthy_str (token_user token))
  then Throw (ConfigError "token.user must be a non-empty string") else
  Ok tt.

Definition validateRoleName (roleName : string) : Res unit :=
  if negb (truthy_str roleName)
  then Throw (ConfigError "user role name must be a non-empty string")
  else Ok tt.

Definition validateUser (user : User) : Res unit :=
  if negb (truthy_str (user_name user))
  then Throw (ConfigError "user.name must be a non-empty string") else
  _ <- match user_roles user with
       | Some userRoles => forEach validateRoleName userRoles
       | None => Ok tt
       end ;;
  Ok tt.

Definition validateGrant (grant : Grant) : Res unit :=
  if negb (truthy_str (grant_resource grant))
  then Throw (ConfigError "grant.resource must be a non-empty string")
  else Ok tt.

Definition validateRole (role : Role) : Res unit :=
  if negb (truthy_str (role_name role))
  then Throw (ConfigError "role.name must be a non-empty string") else
  forEach validateGrant (role_grants role).

(** ** Index builders *)

Fixpoint getTokenIndex_loop (l : list Token) (index : gmap string string)
  : Res (gmap string string) :=
  match l with
  | [] => Ok index
  | token :: rest =>
      if has_key index (token_token token)
      then Throw (ConfigError ("Duplicate token found for user " ++ token_user token))
      else getTokenIndex_loop rest (<[token_token token := token_user token]> index)
  end.

Definition getTokenIndex (l : list Token) : Res (gmap string string) :=
  getTokenIndex_loop l ∅.

Fixpoint getRoleIndex_loop (l : list Role) (index : gmap string Role)
  : Res (gmap string Role) :=
  match l with
  | [] => Ok index
  | role :: rest =>
      if has_key index (role_name role)
      then Throw (ConfigError ("Duplicate role name found for " ++ role_name role))
      else getRoleIndex_loop rest (<[role_name role := role]> index)
  end.

Definition getRoleIndex (l : list Role) : Res (gmap string Role) :=
  getRoleIndex_loop l ∅.

Fixpoint getUserIndex_loop (l : list User) (index : gmap string User)
  : Res (gmap string User) :=
  match l with
  | [] => Ok index
  | user :: rest =>
      if has_key index (user_name user)
      then Throw (ConfigError ("Duplicate user name found for " ++ user_name user))
      else getUserIndex_loop rest (<[user_name user := user]> index)
  end.

Definition getUserIndex (l : list User) : Res (gmap string User) :=
  getUserIndex_loop l ∅.

(** [index[userName][resource][method] = true]; the two outer objects
    exist whenever the source reaches this assignment. *)
Definition setGrantMethod (userName resource method : string)
    (index : GrantIndex) : GrantIndex :=
  alter (alter (<[method := true]>) resource) userName index.

(** The body of [for (var grant of role.grants)]. *)
Definition addGrant (userName : string) (index : GrantIndex) (grant : Grant)
  : GrantIndex :=
  let index1 :=
    if negb (truthy (index !! userName ≫= (.!! grant_resource grant)))
    then alter (<[grant_resource grant := ∅]>) userName index
    else index in
  match grant_methods grant with
  | Some methods =>
      foldl (fun idx method =>
               setGrantMethod userName (grant_resource grant) method idx)
            index1 methods
  | None => setGrantMethod userName (grant_resource grant) "*" index1
  end.

(** The body of [for (var roleName of user.roles)]. *)
Definition addRole (roleIdx : gmap string Role) (userName : string)
    (index : GrantIndex) (roleName : string) : GrantIndex :=
  match roleIdx !! roleName with
  | Some role => foldl (addGrant userName) index (role_grants role)
  | None => index
  end.

(** The outer loop over [Object.entries(userIndex)].  Iterating the
    absent [user.roles] of a non-admin user throws. *)
Fixpoint getGrantIndex_loop (roleIdx : gmap string Role)
    (entries : list (string * User)) (index : GrantIndex) : Res GrantIndex :=
  match entries with
  | [] => Ok index
  | (userName, user) :: rest =>
      if truthy_bool (user_admin user)
      then getGrantIndex_loop roleIdx rest index
      else
        let index1 := <[userName := ∅]> index in
        match user_roles user with
        | Some userRoles =>
            getGrantIndex_loop roleIdx rest
              (foldl (addRole roleIdx userName) index1 userRoles)
        | None => Throw (TypeError "user.roles is not iterable")
        end
  end.

Definition getGrantIndex (userIdx : gmap string User) (roleIdx : gmap string Role)
  : Res GrantIndex :=
  getGrantIndex_loop roleIdx (map_to_list userIdx) ∅.

(** ** The reload procedure: [App.reloadConfig]

    The file system, the YAML parser and the clock are the environment of
    one reload attempt.  [fs_routes] is what
    [YAML.parse(await routesHandle.readFile('utf-8')).routes] evaluates to:
    a [Throw] for a read failure, a parse failure or a document without
    properties, [None] for a missing key or a value that is not an array,
    and the records otherwise. *)

Inductive ConfigFile := RoutesFile | UsersFile | RolesFile | TokensFile.

#[global] Instance ConfigFile_eq_dec : EqDecision ConfigFile.
Proof. solve_decision. Defined.

Record FileSystem := {
  fs_open : ConfigFile -> Res unit;
  fs_mtimeMs : ConfigFile -> Res Z;
  fs_routes : Res (option (list Route));
  fs_users : Res (option (list User));
  fs_roles : Res (option (list Role));
  fs_tokens : Res (option (list Token))
}.

Inductive Event :=
| EvOpen (f : ConfigFile)
| EvStat (f : ConfigFile)
| EvRead (f : ConfigFile)
| EvClose (f : ConfigFile)
| EvError (e : Exn)
| EvReloaded.

(** The application object, the file handles that are open, and what has
    happened so far (newest event first). *)
Record Machine := {
  m_app : App;
  m_handles : list ConfigFile;
  m_trace : list Event
}.

Definition M (A : Type) : Type := Machine -> Res A * Machine.

Definition M_ret {A} (a : A) : M A := fun s => (Ok a, s).

Definition M_bind {A B} (m : M A) (k : A -> M B) : M B := fun s =>
  match m s with
  | (Ok a, s') => k a s'
  | (Throw e, s') => (Throw e, s')
  end.

Definition M_lift {A} (r : Res A) : M A := fun s => (r, s).

(** [try { body } catch (err) { handler }]. *)
Definition M_catch {A} (body : M A) (handler : Exn -> M A) : M A := fun s =>
  match body s with
  | (Ok a, s') => (Ok a, s')
  | (Throw e, s') => handler e s'
  end.

(** [try { body } finally { final }]: [final] runs on every exit of
    [body]; the completion of [body] is kept unless [final] throws. *)
Definition M_finally {A} (body : M A) (final : M unit) : M A := fun s =>
  match body s with
  | (r, s') =>
      match final s' with
      | (Ok _, s'') => (r, s'')
      | (Throw e, s'') => (Throw e, s'')
      end
  end.

Notation "x <~ m ;; k" := (M_bind m (fun x => k))
  (at level 100, m at next level, right associativity).

Definition emit (ev : Event) : M unit := fun s =>
  (Ok tt, {| m_app := m_app s; m_handles := m_handles s;
             m_trace := ev :: m_trace s |}).

Definition this : M App := fun s => (Ok (m_app s), s).

Definition update (f : App -> App) : M unit := fun s =>
  (Ok tt, {| m_app := f (m_app s); m_handles := m_handles s;
             m_trace := m_trace s |}).

(** [await fs.open(file)]. *)
Definition open (fs : FileSystem) (f : ConfigFile) : M unit := fun s =>
  match fs_open fs f with
  | Ok _ => (Ok tt, {| m_app := m_app s; m_handles := f :: m_handles s;
                       m_trace := EvOpen f :: m_trace s |})
  | Throw e => (Throw e, s)
  end.

(** [(await handle.stat()).mtimeMs]. *)
Definition stat_mtimeMs (fs : FileSystem) (f : ConfigFile) : M Z :=
  _ <~ emit (EvStat f) ;; M_lift (fs_mtimeMs fs f).

(** [YAML.parse(await handle.readFile('utf-8'))] and the top-level key. *)
Definition read_doc {A} (f : ConfigFile) (doc : Res (option (list A)))
  : M (option (list A)) :=
  _ <~ emit (EvRead f) ;; M_lift doc.

Fixpoint remove_handle (f : ConfigFile) (hs : list ConfigFile) : list ConfigFile :=
  match hs with
  | [] => []
  | h :: rest => if decide (h = f) then rest else h :: remove_handle f rest
  end.

(** [handle.close()]. *)
Definition close (f : ConfigFile) : M unit := fun s =>
  (Ok tt, {| m_app := m_app s; m_handles := remove_handle f (m_handles s);
             m_trace := EvClose f :: m_trace s |}).

(** Field assignments on [this]. *)
Definition set_isReloading (b : bool) (a : App) : App :=
  {| authHeaders := authHeaders a; routes := routes a; users := users a;
     roles := roles a; tokens := tokens a; tokenIndex := tokenIndex a;
     roleIndex := roleIndex a; userIndex := userIndex a;
     grantIndex := grantIndex a; lastReloadTime := lastReloadTime a;
     lastReloadMTime := lastReloadMTime a;
     lastReloadErrorTime := lastReloadErrorTime a; isReloading := b |}.

Definition set_lastReloadMTime (t : option Z) (a : App) : App :=
  {| authHeaders := authHeaders a; routes := routes a; users := users a;
     roles := roles a; tokens := tokens a; tokenIndex := tokenIndex a;
     roleIndex := roleIndex a; userIndex := userIndex a;
     grantIndex := grantIndex a; lastReloadTime := lastReloadTime a;
     lastReloadMTime := t;
     lastReloadErrorTime := lastReloadErrorTime a;
     isReloading := isReloading a |}.

Definition set_lastReloadTime (t : option Z) (a : App) : App :=
  {| authHeaders := authHeaders a; routes := routes a; users := users a;
     roles := roles a; tokens := tokens a; tokenIndex := tokenIndex a;
     roleIndex := roleIndex a; userIndex := userIndex a;
     grantIndex := grantIndex a; lastReloadTime := t;
     lastReloadMTime := lastReloadMTime a;
     lastReloadErrorTime := lastReloadErrorTime a;
     isReloading := isReloading a |}.

Definition set_lastReloadErrorTime (t : option Z) (a : App) : App :=
  {| authHeaders := authHeaders a; routes := routes a; users := users a;
     roles := roles a; tokens := tokens a; tokenIndex := tokenIndex a;
     roleIndex := roleIndex a; userIndex := userIndex a;
     grantIndex := grantIndex a; lastReloadTime := lastReloadTime a;
     lastReloadMTime := lastReloadMTime a;
     lastReloadErrorTime := t;
     isReloading := isReloading a |}.

(** The eight assignments [this.routes = ...] to [this.grantIndex = ...]. *)
Definition set_config (rs : list Route) (us : list User) (rls : list Role)
    (ts : list Token) (tokenIdx : gmap string string)
    (roleIdx : gmap string Role) (userIdx : gmap string User)
    (grantIdx : GrantIndex) (a : App) : App :=
  {| authHeaders := authHeaders a; routes := Some rs; users := Some us;
     roles := Some rls; tokens := Some ts; tokenIndex := Some tokenIdx;
     roleIndex := Some roleIdx; userIndex := Some userIdx;
     grantIndex := Some grantIdx; lastReloadTime := lastReloadTime a;
     lastReloadMTime := lastReloadMTime a;
     lastReloadErrorTime := lastReloadErrorTime a;
     isReloading := isReloading a |}.

(** [if (!obj.key || !Array.isArray(obj.key)) throw new ConfigError(...)]. *)
Definition require_key {A} (msg : string) (doc : option (list A)) : Res (list A) :=
  match doc with
  | Some l => Ok l
  | None => Throw (ConfigError msg)
  end.

Section Reload.
Context `{RegexEngine}.

(** The [try] block once the mtime test has let the attempt through. *)
Definition reloadConfig_load (fs : FileSystem) : M unit :=
  routesDoc <~ read_doc RoutesFile (fs_routes fs) ;;
  routesList <~ M_lift (require_key "missing key routes or not array" routesDoc) ;;
  _ <~ M_lift (forEach validateRoute routesList) ;;
  usersDoc <~ read_doc UsersFile (fs_users fs) ;;
  usersList <~ M_lift (require_key "missing key users or not array" usersDoc) ;;
  _ <~ M_lift (forEach validateUser usersList) ;;
  userIdx <~ M_lift (getUserIndex usersList) ;;
  rolesDoc <~ read_doc RolesFile (fs_roles fs) ;;
  rolesList <~ M_lift (require_key "missing key roles or not array" rolesDoc) ;;
  _ <~ M_lift (forEach validateRole rolesList) ;;
  roleIdx <~ M_lift (getRoleIndex rolesList) ;;
  tokensDoc <~ read_doc TokensFile (fs_tokens fs) ;;
  tokensList <~ M_lift (require_key "missing key tokens or not array" tokensDoc) ;;
  _ <~ M_lift (forEach validateToken tokensList) ;;
  tokenIdx <~ M_lift (getTokenIndex tokensList) ;;
  grantIdx <~ M_lift (getGrantIndex userIdx roleIdx) ;;
  _ <~ update (set_config routesList usersList rolesList tokensList
                          tokenIdx roleIdx userIdx grantIdx) ;;
  emit EvReloaded.

Definition reloadConfig_try (fs : FileSystem) : M unit :=
  m1 <~ stat_mtimeMs fs RoutesFile ;;
  m2 <~ stat_mtimeMs fs UsersFile ;;
  m3 <~ stat_mtimeMs fs RolesFile ;;
  m4 <~ stat_mtimeMs fs TokensFile ;;
  let maxMTime := Z.max (Z.max (Z.max m1 m2) m3) m4 in
  app <~ this ;;
  if truthy_num (lastReloadMTime app)
     && bool_decide (lastReloadMTime app = Some maxMTime)
  then M_ret tt
  else
    _ <~ update (set_lastReloadMTime (Some maxMTime)) ;;
    reloadConfig_load fs.

Definition reloadConfig_catch (now : Z) (err : Exn) : M unit :=
  _ <~ update (set_lastReloadErrorTime (Some now)) ;;
  app <~ this ;;
  if negb (truthy_num (lastReloadTime app))
  then M_lift (Throw err)
  else emit (EvError err).

Definition reloadConfig_finally (now : Z) : M unit :=
  _ <~ close RoutesFile ;;
  _ <~ close UsersFile ;;
  _ <~ close RolesFile ;;
  _ <~ close TokensFile ;;
  _ <~ update (set_isReloading false) ;;
  _ <~ update (set_lastReloadTime (Some now)) ;;
  update (set_lastReloadErrorTime None).

(** [now] is the value of [+new Date] during the attempt. *)
Definition reloadConfig (fs : FileSystem) (now : Z) : M unit :=
  _ <~ update (set_isReloading true) ;;
  _ <~ open fs RoutesFile ;;
  _ <~ open fs UsersFile ;;
  _ <~ open fs RolesFile ;;
  _ <~ open fs TokensFile ;;
  M_finally
    (M_catch (reloadConfig_try fs) (reloadConfig_catch now))
    (reloadConfig_finally now).

(** The callback that [start] hands to [setInterval]. *)
Definition tick (fs : FileSystem) (now : Z) : M unit :=
  app <~ this ;;
  if negb (isReloading app)
  then reloadConfig fs now
  else M_ret tt.

End Reload.

(** ** Numeric option defaults: [App.defaults]

    Only the numeric options are embedded.  A JavaScript number is [NaN]
    or an integer (ports and intervals; exact below [2^53]).  Unary [+]
    on a string is embedded for strings of decimal digits, the empty
    string included (it converts to [0]).  The other forms of numeric
    literal (sign, fraction, exponent, radix prefix, surrounding white
    space) are outside this embedding and are treated like text that is
    not a number: [NaN]. *)

Inductive Number :=
| NaN
| Num (z : Z).

Definition digit_value (c : ascii) : option Z :=
  let n := Z.of_N (Ascii.N_of_ascii c) in
  if (48 <=? n) && (n <=? 57) then Some (n - 48) else None.

Fixpoint parse_digits (s : string) (acc : Z) : option Z :=
  match s with
  | EmptyString => Some acc
  | String c rest =>
      match digit_value c with
      | Some d => parse_digits rest (10 * acc + d)
      | None => None
      end
  end.

Definition StringToNumber (s : string) : Number :=
  match parse_digits s 0 with
  | Some z => Num z
  | None => NaN
  end.

(** [+v] for a string or [undefined]. *)
Definition unary_plus (v : option string) : Number :=
  match v with
  | Some s => StringToNumber s
  | None => NaN
  end.

Definition ToInt32 (n : Number) : Z :=
  match n with
  | NaN => 0
  | Num z =>
      let m := z mod 2 ^ 32 in
      if 2 ^ 31 <=? m then m - 2 ^ 32 else m
  end.

(** [a | b] on numbers. *)
Definition bitwise_or (a b : Number) : Z :=
  Z.lor (ToInt32 a) (ToInt32 b).

(** [a || b] on numbers with [b] a non-[NaN] literal. *)
Definition logical_or (a : Number) (b : Z) : Z :=
  match a with
  | NaN => b
  | Num z => if z =? 0 then b else z
  end.

Record Defaults := {
  reloadIntervalMs : Z;
  port : Z;
  metricsPort : Z
}.

Definition defaults (env : gmap string string) : Defaults :=
  {| reloadIntervalMs :=
       if has_key env "RELOAD_INTERVAL_MS"
       then logical_or (unary_plus (env !! "RELOAD_INTERVAL_MS")) 0
       else 15000;
     port := logical_or (unary_plus (env !! "HTTP_PORT")) 8080;
     metricsPort := bitwise_or (unary_plus (env !! "METRICS_PORT")) (Num 8181) |}.

(** The port that [start] passes to [metricsServer.listen] when the
    application is constructed without options, as [index.js] does. *)
Definition start_metricsPort (env : gmap string string) : Z :=
  metricsPort (defaults env).

Definition start_port (env : gmap string string) : Z :=
  port (defaults env).

(** ** A stand-in regex engine for concrete examples

    A pattern [^lit] whose [lit] has no metacharacters matches exactly the
    strings that start with [lit]; a pattern without the anchor is read
    the same way here.  A pattern that ends in an opening parenthesis does
    not compile.  Only such patterns occur in the examples below. *)

Fixpoint ends_with_paren (s : string) : bool :=
  match s with
  | EmptyString => false
  | String c EmptyString => Ascii.eqb c "("%char
  | String _ rest => ends_with_paren rest
  end.

Definition strip_anchor (s : string) : string :=
  match s with
  | String c rest => if Ascii.eqb c "^"%char then rest else s
  | EmptyString => s
  end.

Definition PrefixEngine : RegexEngine := {|
  Regex := string;
  Matches := list string;
  RegExp := fun pattern =>
    if ends_with_paren pattern
    then Throw (SyntaxError "Unterminated group")
    else Ok (strip_anchor pattern);
  regex_test := fun re s => String.prefix re s;
  string_match := fun s re => if String.prefix re s then Some [re] else None
|}.


(** * Specification-side definitions *)

(** The user is declared with [admin: true]. *)
Definition admin_user (userIdx : gmap string User) (user : string) : Prop :=
  ∃ u, userIdx !! user = Some u ∧ user_admin u = Some true.


#[global] Instance admin_user_dec userIdx user : Decision (admin_user userIdx user).
Proof.
  unfold admin_user. destruct (userIdx !! user) as [u|] eqn:E.
  - destruct (decide (user_admin u = Some true)) as [Ha|Ha].
    + left. eauto.
    + right. intros (u' & Hu & Hadm). congruence.
  - right. intros (u' & Hu & _). congruence.
Defined.


Section RoutingSpec.
Context `{RegexEngine}.

(** The host regex [pattern] matches [host]. *)
Definition host_pattern_matches (pattern host : string) : bool :=
  match RegExp pattern with
  | Ok re => regex_test re host
  | Throw _ => false
  end.

(** The capture groups of the path regex [pattern] on [path], if it
    matches. *)
Definition path_matches (pattern path : string) : option Matches :=
  match RegExp pattern with
  | Ok re => string_match path re
  | Throw _ => None
  end.

(** The three tests of the route matcher, as the specification lists
    them: methods absent or containing the method; hosts absent or some
    host regex matching the host value; the path regex matching the
    path. *)
Definition route_satisfies (route : Route) (method path host : string) : bool :=
  match route_methods route with
  | None => true
  | Some methods => bool_decide (method ∈ methods)
  end
  && match route_hosts route with
     | None => true
     | Some hosts => existsb (fun pattern => host_pattern_matches pattern host) hosts
     end
  && truthy (path_matches (route_path route) path).

(** The host value the regexes see: the empty string without a [Host]
    header. *)
Definition host_value (host : option string) : string :=
  match host with
  | Some h => h
  | None => ""
  end.

End RoutingSpec.

(** The grants of one user, as a function of the user's role names: what
    the two inner loops of [getGrantIndex] leave in [index[userName]]. *)
Definition addGrant_user (res : ResourceMap) (grant : Grant) : ResourceMap :=
  let res1 :=
    if negb (truthy (res !! grant_resource grant))
    then <[grant_resource grant := ∅]> res
    else res in
  match grant_methods grant with
  | Some methods =>
      foldl (fun r method => alter (<[method := true]>) (grant_resource grant) r)
            res1 methods
  | None => alter (<["*" := true]>) (grant_resource grant) res1
  end.

Definition addRole_user (roleIdx : gmap string Role) (res : ResourceMap)
    (roleName : string) : ResourceMap :=
  match roleIdx !! roleName with
  | Some role => foldl addGrant_user res (role_grants role)
  | None => res
  end.

Definition userGrants (roleIdx : gmap string Role) (roleNames : list string)
  : ResourceMap :=
  foldl (addRole_user roleIdx) ∅ roleNames.

(** The entry of the grant index for one user record: none for an admin. *)
Definition userEntry (roleIdx : gmap string Role) (user : User)
  : option ResourceMap :=
  if truthy_bool (user_admin user) then None
  else Some (userGrants roleIdx (default [] (user_roles user))).

(** The loop over [user.roles] can run: the user is an admin (the loop is
    skipped) or carries a [roles] list. *)
Definition roles_iterable (user : User) : bool :=
  truthy_bool (user_admin user) || truthy (user_roles user).


Definition with_roles (user : User) (roleNames : option (list string)) : User :=
  {| user_name := user_name user; user_roles := roleNames;
     user_admin := user_admin user |}.

(** ** Concrete records used in the examples *)

(** A user record without the [roles] key, as [validateUser] accepts. *)
Definition bob : User :=
  {| user_name := "bob"; user_roles := None; user_admin := None |}.

Definition john : User :=
  {| user_name := "john"; user_roles := Some ["reader"; "ghost"];
     user_admin := None |}.

Definition alice : User :=
  {| user_name := "alice"; user_roles := None; user_admin := Some true |}.

Definition reader : Role :=
  {| role_name := "reader";
     role_grants := [ {| grant_resource := "api"; grant_methods := Some ["GET"] |};
                      {| grant_resource := "pub"; grant_methods := None |} ] |}.

(** ** Reload: specification-side definitions *)

(** The configuration the dispatcher serves from, as stored on [this]. *)
Definition snapshot (a : App) :=
  (routes a, users a, roles a, tokens a,
   tokenIndex a, roleIndex a, userIndex a, grantIndex a).

(** Every [fs.open] succeeds. *)
Definition opens_ok (fs : FileSystem) : Prop :=
  ∀ f, fs_open fs f = Ok tt.

(** [Math.max] over the four [mtimeMs], when every [stat] succeeds. *)
Definition maxMTime_of (fs : FileSystem) : Res Z :=
  m1 <- fs_mtimeMs fs RoutesFile ;;
  m2 <- fs_mtimeMs fs UsersFile ;;
  m3 <- fs_mtimeMs fs RolesFile ;;
  m4 <- fs_mtimeMs fs TokensFile ;;
  Ok (Z.max (Z.max (Z.max m1 m2) m3) m4).

(** The test [this.lastReloadMTime && this.lastReloadMTime == maxMTime]. *)
Definition mtime_unchanged (a : App) (maxMTime : Z) : bool :=
  truthy_num (lastReloadMTime a)
  && bool_decide (lastReloadMTime a = Some maxMTime).

Definition is_read (ev : Event) : bool :=
  match ev with EvRead _ => true | _ => false end.

(** The events of an attempt, oldest first: those recorded since the
    state [before]. *)
Definition events_since (before after : Machine) : list Event :=
  reverse (take (length (m_trace after) - length (m_trace before)) (m_trace after)).

(** The state once the four files have been opened. *)
Definition opened (s : Machine) : Machine :=
  {| m_app := set_isReloading true (m_app s);
     m_handles := TokensFile :: RolesFile :: UsersFile :: RoutesFile :: m_handles s;
     m_trace := EvOpen TokensFile :: EvOpen RolesFile :: EvOpen UsersFile
                :: EvOpen RoutesFile :: m_trace s |}.

(** The state once the four [stat] calls have returned. *)
Definition stats_done (s : Machine) : Machine :=
  {| m_app := m_app s;
     m_handles := m_handles s;
     m_trace := EvStat TokensFile :: EvStat RolesFile :: EvStat UsersFile
                :: EvStat RoutesFile :: m_trace s |}.

(** The state once [this.lastReloadMTime = maxMTime] has run. *)
Definition mtime_recorded (maxMTime : Z) (s : Machine) : Machine :=
  {| m_app := set_lastReloadMTime (Some maxMTime) (m_app s);
     m_handles := m_handles s;
     m_trace := m_trace s |}.

(** A computation that neither opens nor closes a handle. *)
Definition keeps_handles {A} (m : M A) : Prop :=
  ∀ s, m_handles (m s).2 = m_handles s.

(** The values of one successful load. *)
Record Config := {
  cfg_routes : list Route;
  cfg_users : list User;
  cfg_roles : list Role;
  cfg_tokens : list Token;
  cfg_tokenIndex : gmap string string;
  cfg_roleIndex : gmap string Role;
  cfg_userIndex : gmap string User;
  cfg_grantIndex : GrantIndex
}.

Definition install (c : Config) (a : App) : App :=
  set_config (cfg_routes c) (cfg_users c) (cfg_roles c) (cfg_tokens c)
             (cfg_tokenIndex c) (cfg_roleIndex c) (cfg_userIndex c)
             (cfg_grantIndex c) a.

Definition config_snapshot (c : Config) :=
  (Some (cfg_routes c), Some (cfg_users c), Some (cfg_roles c),
   Some (cfg_tokens c), Some (cfg_tokenIndex c), Some (cfg_roleIndex c),
   Some (cfg_userIndex c), Some (cfg_grantIndex c)).

Section LoadSpec.
Context `{RegexEngine}.

(** Parse, validate and build the indices, without the bookkeeping: the
    values to assign to [this] when everything succeeds. *)
Definition loadConfig (fs : FileSystem) : Res Config :=
  routesDoc <- fs_routes fs ;;
  routesList <- require_key "missing key routes or not array" routesDoc ;;
  _ <- forEach validateRoute routesList ;;
  usersDoc <- fs_users fs ;;
  usersList <- require_key "missing key users or not array" usersDoc ;;
  _ <- forEach validateUser usersList ;;
  userIdx <- getUserIndex usersList ;;
  rolesDoc <- fs_roles fs ;;
  rolesList <- require_key "missing key roles or not array" rolesDoc ;;
  _ <- forEach validateRole rolesList ;;
  roleIdx <- getRoleIndex rolesList ;;
  tokensDoc <- fs_tokens fs ;;
  tokensList <- require_key "missing key tokens or not array" tokensDoc ;;
  _ <- forEach validateToken tokensList ;;
  tokenIdx <- getTokenIndex tokensList ;;
  grantIdx <- getGrantIndex userIdx roleIdx ;;
  Ok {| cfg_routes := routesList; cfg_users := usersList;
        cfg_roles := rolesList; cfg_tokens := tokensList;
        cfg_tokenIndex := tokenIdx; cfg_roleIndex := roleIdx;
        cfg_userIndex := userIdx; cfg_grantIndex := grantIdx |}.

End LoadSpec.

(** ** Concrete environments used in the examples *)

Definition route_public : Route :=
  {| route_path := "^/public"; route_methods := None; route_hosts := None;
     route_proxy_target := "http://upstream"; route_resource := Some "pub";
     route_anonymous := Some true |}.

Definition route_hosted : Route :=
  {| route_path := "^/hostroute"; route_methods := None;
     route_hosts := Some ["^alpha"; "^beta"];
     route_proxy_target := "http://upstream"; route_resource := Some "hr";
     route_anonymous := Some true |}.

Definition route_api : Route :=
  {| route_path := "^/"; route_methods := Some ["GET"; "PUT"];
     route_hosts := None; route_proxy_target := "http://upstream";
     route_resource := Some "api"; route_anonymous := None |}.

Definition token_john : Token := {| token_token := "T1"; token_user := "john" |}.
Definition token_alice : Token := {| token_token := "T2"; token_user := "alice" |}.
Definition token_jeff : Token := {| token_token := "T3"; token_user := "jeff" |}.

(** Four files that open, carry the given mtime, and hold a valid
    configuration with the given tokens. *)
Definition fs_valid (mtimeMs : Z) (ts : list Token) : FileSystem :=
  {| fs_open := fun _ => Ok tt;
     fs_mtimeMs := fun _ => Ok mtimeMs;
     fs_routes := Ok (Some [route_public; route_hosted; route_api]);
     fs_users := Ok (Some [john; alice]);
     fs_roles := Ok (Some [reader]);
     fs_tokens := Ok (Some ts) |}.

(** The same files with a routes document that does not parse. *)
Definition fs_bad_routes (mtimeMs : Z) : FileSystem :=
  {| fs_open := fun _ => Ok tt;
     fs_mtimeMs := fun _ => Ok mtimeMs;
     fs_routes := Throw (SyntaxError "bad indentation");
     fs_users := Ok (Some [john; alice]);
     fs_roles := Ok (Some [reader]);
     fs_tokens := Ok (Some [token_john; token_alice]) |}.

(** A users document whose only record has no [roles] key. *)
Definition fs_bob (mtimeMs : Z) : FileSystem :=
  {| fs_open := fun _ => Ok tt;
     fs_mtimeMs := fun _ => Ok mtimeMs;
     fs_routes := Ok (Some [route_public; route_hosted; route_api]);
     fs_users := Ok (Some [bob]);
     fs_roles := Ok (Some [reader]);
     fs_tokens := Ok (Some [token_john; token_alice]) |}.

(** The users file cannot be opened. *)
Definition fs_users_missing (mtimeMs : Z) : FileSystem :=
  {| fs_open := fun f =>
       match f with
       | UsersFile => Throw (IOError "ENOENT: no such file or directory")
       | _ => Ok tt
       end;
     fs_mtimeMs := fun _ => Ok mtimeMs;
     fs_routes := Ok (Some [route_public; route_hosted; route_api]);
     fs_users := Ok (Some [john; alice]);
     fs_roles := Ok (Some [reader]);
     fs_tokens := Ok (Some [token_john; token_alice]) |}.

(** The application as the constructor leaves it. *)
Definition app_new : App :=
  {| authHeaders := ["x-authorization"; "x-token"];
     routes := None; users := None; roles := None; tokens := None;
     tokenIndex := None; roleIndex := None; userIndex := None;
     grantIndex := None; lastReloadTime := None; lastReloadMTime := None;
     lastReloadErrorTime := None; isReloading := false |}.

Definition machine_new : Machine :=
  {| m_app := app_new; m_handles := []; m_trace := [] |}.

(** The state after a successful initial load of [fs_valid mtimeMs ts]
    at time [now]. *)
Definition machine_loaded (mtimeMs now : Z) (ts : list Token) : Machine :=
  (@reloadConfig PrefixEngine (fs_valid mtimeMs ts) now machine_new).2.

(** The loaded application of the examples and its indices, written out. *)
Definition app_loaded : App :=
  m_app (machine_loaded 5 1000 [token_john; token_alice]).

Definition users_loaded : gmap string User :=
  {[ "john" := john; "alice" := alice ]}.

Definition roles_loaded : gmap string Role :=
  {[ "reader" := reader ]}.

Definition tokens_loaded : gmap string string :=
  {[ "T1" := "john"; "T2" := "alice" ]}.

Definition grants_loaded : GrantIndex :=
  {[ "john" := {[ "api" := {[ "GET" := true ]}; "pub" := {[ "*" := true ]} ]} ]}.


(** * Further code: definitions *)

(** ** The common shape of the three keyed index builders *)





(** ** Grants: specification-side definitions *)







(** ** Request dispatcher: [App.serve] and the [createServer] wrapper *)

(** What the proxy does with a request: one of its own status codes, with
    the resource label of the counter it increments, or the hand-over to
    the upstream target. *)
Inductive Outcome :=
| NotFound
| Unauthorized (resource : option string)
| Forbidden (resource : option string)
| Forwarded (user : string) (resource : option string) (target : string)
| InternalError.

(** The property key that [route.resource] denotes in
    [grantIndex[user][resource]]: an absent resource is the key
    ["undefined"]. *)
Definition resource_key (resource : option string) : string :=
  match resource with
  | Some r => r
  | None => "undefined"
  end.

Section Dispatch.
Context `{RegexEngine}.

Definition serve (app : App) (req : Request) : Res Outcome :=
  routeInfo <- getRoute app (req_method req) (req_url req)
                        (req_headers req !! "host") ;;
  match routeInfo with
  | None => Ok NotFound
  | Some (route, matches) =>
      if truthy_bool (route_anonymous route)
      then Ok (Forwarded "anonymous" (route_resource route)
                         (route_proxy_target route))
      else
        user <- authenticate app req ;;
        match user with
        | None => Ok (Unauthorized (route_resource route))
        | Some userName =>
            if negb (truthy_str userName)
            then Ok (Unauthorized (route_resource route))
            else
              allowed <- authorize app userName
                                   (resource_key (route_resource route))
                                   (req_method req) ;;
              if negb allowed
              then Ok (Forbidden (route_resource route))
              else Ok (Forwarded userName (route_resource route)
                                 (route_proxy_target route))
        end
  end.


End Dispatch.

(** The status code the proxy writes itself; a forwarded request gets the
    status of the upstream. *)
Definition status_code (outcome : Outcome) : option Z :=
  match outcome with
  | NotFound => Some 404
  | Unauthorized _ => Some 401
  | Forbidden _ => Some 403
  | InternalError => Some 500
  | Forwarded _ _ _ => None
  end.

(** Requests used in the examples. *)
Definition req_john_get : Request :=
  {| req_method := "GET"; req_url := "/";
     req_headers := {[ "x-authorization" := "T1"; "host" := "alpha.example" ]} |}.

Definition req_public : Request :=
  {| req_method := "POST"; req_url := "/public/page";
     req_headers := {[ "x-authorization" := "no such token" ]} |}.

(** ** Start-up: [App.start] *)

(** What [start] sets up once the initial load has succeeded: the two
    listening ports and the delay handed to [setInterval], if any. *)
Record Listening := {
  listen_port : Z;
  listen_metricsPort : Z;
  reload_timer : option Z
}.

(** [if (reloadIntervalMs > 0) setInterval(..., Math.max(reloadIntervalMs, 1000))]. *)
Definition start_timer (opts : Defaults) : option Z :=
  if 0 <? reloadIntervalMs opts
  then Some (Z.max (reloadIntervalMs opts) 1000)
  else None.

Section Start.
Context `{RegexEngine}.

(** [opts] are the numeric options of [this.opts]. *)
Definition start (opts : Defaults) (fs : FileSystem) (now : Z) : M Listening :=
  _ <~ reloadConfig fs now ;;
  M_ret {| listen_port := port opts;
           listen_metricsPort := metricsPort opts;
           reload_timer := start_timer opts |}.

End Start.

(** No file is read among the events. *)
Definition no_read (evs : list Event) : Prop :=
  Forall (fun ev => is_read ev = false) evs.

Section ServedState.
Context `{RegexEngine}.

(** What the dispatcher relies on: routes that passed [validateRoute],
    and token, user, role and grant indices that are present, the grant
    index being the one built from the user and role indices. *)
Definition valid_app (a : App) : Prop :=
  ∃ rs tokenIdx userIdx roleIdx grantIdx,
    routes a = Some rs ∧
    Forall (fun r => validateRoute r = Ok tt) rs ∧
    tokenIndex a = Some tokenIdx ∧
    userIndex a = Some userIdx ∧
    roleIndex a = Some roleIdx ∧
    grantIndex a = Some grantIdx ∧
    getGrantIndex userIdx roleIdx = Ok grantIdx.

End ServedState.


(** The values loaded from [fs_valid _ [token_john; token_alice; token_jeff]]. *)
Definition config_jeff : Config :=
  {| cfg_routes := [route_public; route_hosted; route_api];
     cfg_users := [john; alice];
     cfg_roles := [reader];
     cfg_tokens := [token_john; token_alice; token_jeff];
     cfg_tokenIndex := {[ "T1" := "john"; "T2" := "alice"; "T3" := "jeff" ]};
     cfg_roleIndex := roles_loaded;
     cfg_userIndex := users_loaded;
     cfg_grantIndex := grants_loaded |}.
(** * Properties *)

(** ** Authorizer *)






(** ** Authenticator *)



(** ** Route matcher *)

Section RoutingFacts.
Context `{RegexEngine}.

Lemma forEach_Ok {A} (body : A → Res unit) (l : list A) :
  forEach body l = Ok tt ↔ Forall (fun x => body x = Ok tt) l.
Proof.
  induction l as [|x l IH]; simpl.
  - split; [constructor|reflexivity].
  - destruct (body x) as [[]|e] eqn:Hx; simpl.
    + rewrite IH. split.
      * intros Hl. by constructor.
      * by inversion 1.
    + split; [discriminate|]. inversion 1; congruence.
Qed.

Lemma validateHost_compiles (pattern : string) :
  validateHost pattern = Ok tt → ∃ re, RegExp pattern = Ok re.
Proof.
  unfold validateHost. destruct (negb (truthy_str pattern)); [discriminate|].
  destruct (RegExp pattern) as [re|e]; [eauto|discriminate].
Qed.

Lemma validateRoute_compiles (route : Route) :
  validateRoute route = Ok tt →
  (∃ re, RegExp (route_path route) = Ok re) ∧
  (∀ hosts, route_hosts route = Some hosts →
     Forall (fun pattern => ∃ re, RegExp pattern = Ok re) hosts).
Proof.
  unfold validateRoute.
  destruct (negb (truthy_str (route_path route))); [discriminate|].
  destruct (RegExp (route_path route)) as [re|e]; simpl; [|discriminate].
  destruct (negb (truthy_str (route_proxy_target route))); [discriminate|].
  intros Hhosts. split; [eauto|].
  intros hosts Hh. rewrite Hh in Hhosts. apply forEach_Ok in Hhosts.
  eapply Forall_impl; [exact Hhosts|]. intros p. apply validateHost_compiles.
Qed.

Lemma getRoute_hosts_existsb (hosts : list string) (host : string) :
  Forall (fun pattern => ∃ re, RegExp pattern = Ok re) hosts →
  getRoute_hosts hosts host =
    Ok (existsb (fun pattern => host_pattern_matches pattern host) hosts).
Proof.
  induction 1 as [|p hosts [re Hre] _ IH]; simpl; [reflexivity|].
  unfold host_pattern_matches at 1. rewrite Hre. simpl.
  destruct (regex_test re host); [reflexivity|exact IH].
Qed.

(** One iteration of the loop over a validated route. *)
Lemma getRoute_loop_step (route : Route) (rest : list Route)
    (method path host : string) :
  validateRoute route = Ok tt →
  getRoute_loop (route :: rest) method path host =
    if route_satisfies route method path host
    then match path_matches (route_path route) path with
         | Some matches => Ok (Some (route, matches))
         | None => getRoute_loop rest method path host
         end
    else getRoute_loop rest method path host.
Proof.
  intros Hv. apply validateRoute_compiles in Hv as [[re Hre] Hhosts].
  simpl. unfold route_satisfies, path_matches. rewrite Hre.
  destruct (match route_methods route with
            | Some methods => bool_decide (method ∈ methods)
            | None => true
            end); simpl; [|reflexivity].
  destruct (route_hosts route) as [hosts|]; simpl.
  - rewrite (getRoute_hosts_existsb hosts host) by auto. simpl.
    destruct (existsb _ hosts); simpl; [|reflexivity].
    destruct (string_match path re); reflexivity.
  - destruct (string_match path re); reflexivity.
Qed.

Lemma getRoute_loop_skip (pre rest : list Route) (method path host : string) :
  Forall (fun r => validateRoute r = Ok tt) pre →
  Forall (fun r => route_satisfies r method path host = false) pre →
  getRoute_loop (pre ++ rest) method path host =
  getRoute_loop rest method path host.
Proof.
  induction pre as [|r pre IH]; intros Hv Hs; [reflexivity|].
  apply Forall_cons in Hv as [Hvr Hvpre].
  apply Forall_cons in Hs as [Hsr Hspre].
  simpl app. rewrite getRoute_loop_step by assumption.
  rewrite Hsr. by apply IH.
Qed.

(** C3.  Over the validated routes of a loaded application, the matcher
    returns the first route, in declared order, that passes the method,
    host and path tests, together with the captures of its path regex;
    the host tested is the empty string when the request has no [Host]
    header.  Routes after the first match are not returned, whether they
    match or not.  When no route passes, the matcher returns nothing. *)
Theorem getRoute_first_match (app : App) (rs : list Route)
    (method path : string) (host : option string) :
  routes app = Some rs →
  Forall (fun r => validateRoute r = Ok tt) rs →
  (∀ pre route post,
     rs = (pre ++ route :: post)%list →
     Forall (fun r => route_satisfies r method path (host_value host) = false) pre →
     route_satisfies route method path (host_value host) = true →
     ∃ matches,
       path_matches (route_path route) path = Some matches ∧
       getRoute app method path host = Ok (Some (route, matches)))
  ∧
  (Forall (fun r => route_satisfies r method path (host_value host) = false) rs →
   getRoute app method path host = Ok None).
Proof.
  intros Hrs Hvalid. unfold getRoute. rewrite Hrs.
  change (match host with Some h => h | None => "" end) with (host_value host).
  split.
  - intros pre route post -> Hpre Hroute.
    apply Forall_app in Hvalid as [Hvpre Hvrest].
    inversion Hvrest as [|? ? Hvroute _]; subst.
    rewrite getRoute_loop_skip by assumption.
    rewrite getRoute_loop_step by assumption. rewrite Hroute.
    unfold route_satisfies in Hroute.
    apply andb_true_iff in Hroute as [_ Hpath].
    destruct (path_matches (route_path route) path) as [matches|];
      [eauto|discriminate].
  - intros Hnone. rewrite <- (app_nil_r rs).
    by rewrite getRoute_loop_skip.
Qed.

End RoutingFacts.

(** ** Grant index *)

Lemma alter_Some_insert {V} (f : V → V) (m : gmap string V) (k : string) (v : V) :
  m !! k = Some v → alter f k m = <[k := f v]> m.
Proof.
  intros Hk. apply map_eq. intros j. destruct (decide (k = j)) as [<-|Hne].
  - by rewrite lookup_alter_eq, lookup_insert_eq, Hk.
  - by rewrite lookup_alter_ne, lookup_insert_ne.
Qed.

(** A loop whose body rewrites only the object stored under [k] is a
    loop on that object. *)
Lemma foldl_at_key {A V} (F : gmap string V → A → gmap string V)
    (f : V → A → V) (k : string) :
  (∀ idx v a, idx !! k = Some v → F idx a = <[k := f v a]> idx) →
  ∀ l idx v, idx !! k = Some v → foldl F idx l = <[k := foldl f v l]> idx.
Proof.
  intros HF. induction l as [|a l IH]; intros idx v Hk; simpl.
  - symmetry. by apply insert_id.
  - rewrite (HF idx v a Hk).
    rewrite (IH _ (f v a)) by apply lookup_insert_eq.
    apply insert_insert_eq.
Qed.

Lemma setGrantMethod_insert (userName resource method : string)
    (index : GrantIndex) (res : ResourceMap) :
  index !! userName = Some res →
  setGrantMethod userName resource method index =
    <[userName := alter (<[method := true]>) resource res]> index.
Proof. intros Hk. unfold setGrantMethod. by apply alter_Some_insert. Qed.

Lemma addGrant_insert (userName : string) (index : GrantIndex)
    (res : ResourceMap) (grant : Grant) :
  index !! userName = Some res →
  addGrant userName index grant = <[userName := addGrant_user res grant]> index.
Proof.
  intros Hk. unfold addGrant, addGrant_user. rewrite Hk. simpl.
  set (r := grant_resource grant).
  set (res1 := if negb (truthy (res !! r)) then <[r := ∅]> res else res).
  set (index1 := if negb (truthy (res !! r))
                 then alter (<[r := ∅]>) userName index else index).
  assert (Hindex1 : index1 = <[userName := res1]> index).
  { unfold index1, res1. destruct (negb (truthy (res !! r))).
    - by apply alter_Some_insert.
    - symmetry. by apply insert_id. }
  rewrite Hindex1.
  assert (Hlook : (<[userName := res1]> index) !! userName = Some res1)
    by apply lookup_insert_eq.
  destruct (grant_methods grant) as [methods|].
  - rewrite (foldl_at_key _
               (fun r' method => alter (<[method := true]>) r r') userName)
      with (v := res1); [|intros; by apply setGrantMethod_insert|done].
    apply insert_insert_eq.
  - rewrite (setGrantMethod_insert _ _ _ _ res1) by done.
    apply insert_insert_eq.
Qed.

Lemma addRole_insert (roleIdx : gmap string Role) (userName : string)
    (index : GrantIndex) (res : ResourceMap) (roleName : string) :
  index !! userName = Some res →
  addRole roleIdx userName index roleName =
    <[userName := addRole_user roleIdx res roleName]> index.
Proof.
  intros Hk. unfold addRole, addRole_user.
  destruct (roleIdx !! roleName) as [role|].
  - apply foldl_at_key; [|done]. intros. by apply addGrant_insert.
  - symmetry. by apply insert_id.
Qed.

(** What the loops over the roles of one user leave in the index. *)
Lemma user_roles_loop (roleIdx : gmap string Role) (userName : string)
    (index : GrantIndex) (roleNames : list string) :
  foldl (addRole roleIdx userName) (<[userName := ∅]> index) roleNames =
    <[userName := userGrants roleIdx roleNames]> index.
Proof.
  rewrite (foldl_at_key _ (addRole_user roleIdx) userName) with (v := ∅).
  - apply insert_insert_eq.
  - intros. by apply addRole_insert.
  - apply lookup_insert_eq.
Qed.

(** The outer loop, over any list of entries with distinct user names:
    it throws as soon as some non-admin user has no [roles], and
    otherwise adds one entry per non-admin user. *)
Lemma getGrantIndex_loop_spec (roleIdx : gmap string Role)
    (entries : list (string * User)) (index : GrantIndex) :
  NoDup entries.*1 →
  getGrantIndex_loop roleIdx entries index =
    if forallb (fun e => roles_iterable e.2) entries
    then Ok (omap (userEntry roleIdx) (list_to_map entries) ∪ index)
    else Throw (TypeError "user.roles is not iterable").
Proof.
  revert index. induction entries as [|[userName user] rest IH];
    intros index Hnd.
  - simpl. by rewrite omap_empty, (left_id_L ∅ (∪)).
  - apply NoDup_cons in Hnd as [Hfresh Hnd].
    assert (Hnone : omap (userEntry roleIdx)
                      (list_to_map rest : gmap string User) !! userName = None).
    { rewrite lookup_omap. by rewrite (not_elem_of_list_to_map_1 rest). }
    simpl. unfold roles_iterable at 1. simpl.
    destruct (truthy_bool (user_admin user)) eqn:Hadm; simpl.
    + rewrite IH by assumption.
      rewrite (omap_insert_None _ _ _ user)
        by (unfold userEntry; by rewrite Hadm).
      by rewrite (delete_id _ _ Hnone).
    + destruct (user_roles user) as [userRoles|] eqn:Hroles; simpl;
        [|reflexivity].
      rewrite user_roles_loop, IH by assumption.
      destruct (forallb _ rest); [|reflexivity]. f_equal.
      rewrite (omap_insert_Some _ _ _ user (userGrants roleIdx userRoles))
        by (unfold userEntry; by rewrite Hadm, Hroles).
      by rewrite <- insert_union_r, <- insert_union_l.
Qed.

Lemma forallb_map_to_list (P : User → bool) (userIdx : gmap string User) :
  forallb (fun e => P e.2) (map_to_list userIdx) = true ↔
  map_Forall (fun _ u => P u = true) userIdx.
Proof.
  rewrite forallb_forall, map_Forall_to_list, Forall_forall. split.
  - intros Hall [k u] Hin. apply (Hall (k, u)). by apply list_elem_of_In.
  - intros Hall [k u] Hin. apply (Hall (k, u)). by apply list_elem_of_In.
Qed.

(** [getGrantIndex] as a whole. *)
Lemma getGrantIndex_spec (userIdx : gmap string User) (roleIdx : gmap string Role) :
  getGrantIndex userIdx roleIdx =
    if decide (map_Forall (fun _ u => roles_iterable u = true) userIdx)
    then Ok (omap (userEntry roleIdx) userIdx)
    else Throw (TypeError "user.roles is not iterable").
Proof.
  unfold getGrantIndex.
  rewrite getGrantIndex_loop_spec by apply NoDup_fst_map_to_list.
  rewrite list_to_map_to_list, (right_id_L ∅ (∪)).
  destruct (forallb _ (map_to_list userIdx)) eqn:Hall.
  - apply forallb_map_to_list in Hall. by rewrite decide_True.
  - rewrite decide_False; [done|]. intros Hf.
    apply (forallb_map_to_list roles_iterable) in Hf. congruence.
Qed.

(** The result does not depend on the order in which the entries of the
    user index are visited. *)
Lemma getGrantIndex_loop_order (roleIdx : gmap string Role)
    (userIdx : gmap string User) (entries : list (string * User)) :
  entries ≡ₚ map_to_list userIdx →
  getGrantIndex_loop roleIdx entries ∅ = getGrantIndex userIdx roleIdx.
Proof.
  intros Hperm. unfold getGrantIndex.
  assert (Hnd : NoDup entries.*1).
  { rewrite Hperm. apply NoDup_fst_map_to_list. }
  rewrite !getGrantIndex_loop_spec by (assumption || apply NoDup_fst_map_to_list).
  rewrite (list_to_map_proper _ _ Hnd Hperm).
  replace (forallb (fun e => roles_iterable e.2) entries)
    with (forallb (fun e => roles_iterable e.2) (map_to_list userIdx)); [done|].
  apply eq_true_iff_eq. rewrite !forallb_forall.
  split; intros Hall e Hin; apply Hall;
    apply list_elem_of_In; apply list_elem_of_In in Hin;
    [by rewrite <- Hperm | by rewrite Hperm].
Qed.



(** Some non-admin user without [roles] makes the build throw. *)
Lemma getGrantIndex_roles_absent (userIdx : gmap string User)
    (roleIdx : gmap string Role) (userName : string) (user : User) :
  userIdx !! userName = Some user →
  truthy_bool (user_admin user) = false →
  user_roles user = None →
  getGrantIndex userIdx roleIdx = Throw (TypeError "user.roles is not iterable").
Proof.
  intros Hu Hadm Hroles. rewrite getGrantIndex_spec.
  rewrite decide_False; [done|]. intros Hall.
  specialize (Hall userName user Hu). unfold roles_iterable in Hall.
  rewrite Hadm, Hroles in Hall. discriminate.
Qed.


(** C4 (the code diverges).  The record [{name: 'bob'}] has no [roles]
    key.  It passes [validateUser] and enters the user index, but building
    the grant index over that index throws a [TypeError] where the claim
    promises an empty set of grants; with [roles: []] the build succeeds
    and gives the user an empty entry.  An admin without [roles] is
    skipped before the loop and does no harm.  A users document holding
    the record makes the whole load, and with it the initial reload,
    fail with that error. *)
Theorem getGrantIndex_roles_absent_throws :
  validateUser bob = Ok tt
  ∧ getUserIndex [bob] = Ok {[ "bob" := bob ]}
  ∧ getGrantIndex {[ "bob" := bob ]} {[ "reader" := reader ]} =
      Throw (TypeError "user.roles is not iterable")
  ∧ getGrantIndex {[ "bob" := with_roles bob (Some []) ]} {[ "reader" := reader ]} =
      Ok {[ "bob" := ∅ ]}
  ∧ getGrantIndex {[ "alice" := alice ]} {[ "reader" := reader ]} = Ok ∅
  ∧ @loadConfig PrefixEngine (fs_bob 5) =
      Throw (TypeError "user.roles is not iterable")
  ∧ (@reloadConfig PrefixEngine (fs_bob 5) 1000 machine_new).1 =
      Throw (TypeError "user.roles is not iterable").
Proof.
  split; [reflexivity|]. split; [reflexivity|].
  split; [by apply (getGrantIndex_roles_absent _ _ "bob" bob)|].
  split; [vm_compute; reflexivity|].
  split; [vm_compute; reflexivity|].
  split; vm_compute; reflexivity.
Qed.

(** ** Reload *)

Lemma keeps_handles_ret {A} (a : A) : keeps_handles (M_ret a).
Proof. by intros s. Qed.

Lemma keeps_handles_lift {A} (r : Res A) : keeps_handles (M_lift r).
Proof. by intros s. Qed.

Lemma keeps_handles_emit (ev : Event) : keeps_handles (emit ev).
Proof. by intros s. Qed.

Lemma keeps_handles_update (f : App → App) : keeps_handles (update f).
Proof. by intros s. Qed.

Lemma keeps_handles_this : keeps_handles this.
Proof. by intros s. Qed.

Lemma keeps_handles_bind {A B} (m : M A) (k : A → M B) :
  keeps_handles m → (∀ a, keeps_handles (k a)) → keeps_handles (M_bind m k).
Proof.
  intros Hm Hk s. unfold M_bind. specialize (Hm s).
  destruct (m s) as [[a|e] s']; simpl in *; [|assumption].
  by rewrite Hk.
Qed.

Lemma keeps_handles_catch {A} (body : M A) (handler : Exn → M A) :
  keeps_handles body → (∀ e, keeps_handles (handler e)) →
  keeps_handles (M_catch body handler).
Proof.
  intros Hb Hh s. unfold M_catch. specialize (Hb s).
  destruct (body s) as [[a|e] s']; simpl in *; [assumption|].
  by rewrite Hh.
Qed.

Create HintDb handles.
#[local] Hint Resolve keeps_handles_ret keeps_handles_lift keeps_handles_emit
  keeps_handles_update keeps_handles_this : handles.

Ltac keeps_handles_tac :=
  repeat first
    [ apply keeps_handles_bind; [|intros ?]
    | match goal with |- keeps_handles (if ?c then _ else _) => destruct c end
    | solve [auto with handles] ].

Section ReloadFacts.
Context `{RegexEngine}.

Lemma keeps_handles_load (fs : FileSystem) : keeps_handles (reloadConfig_load fs).
Proof. unfold reloadConfig_load, read_doc. keeps_handles_tac. Qed.

Lemma keeps_handles_try (fs : FileSystem) : keeps_handles (reloadConfig_try fs).
Proof.
  unfold reloadConfig_try, stat_mtimeMs. keeps_handles_tac.
Qed.

Lemma keeps_handles_catch_block (now : Z) (err : Exn) :
  keeps_handles (reloadConfig_catch now err).
Proof. unfold reloadConfig_catch. keeps_handles_tac. Qed.

Lemma reloadConfig_opened (fs : FileSystem) (now : Z) (s : Machine) :
  opens_ok fs →
  reloadConfig fs now s =
    M_finally (M_catch (reloadConfig_try fs) (reloadConfig_catch now))
              (reloadConfig_finally now) (opened s).
Proof.
  intros Hopen. unfold reloadConfig, M_bind, open, update. simpl.
  by rewrite !Hopen.
Qed.

Lemma reloadConfig_finally_spec (now : Z) (s : Machine) :
  reloadConfig_finally now s =
    (Ok tt,
     {| m_app := set_lastReloadErrorTime None
                   (set_lastReloadTime (Some now)
                      (set_isReloading false (m_app s)));
        m_handles := remove_handle TokensFile
                       (remove_handle RolesFile
                          (remove_handle UsersFile
                             (remove_handle RoutesFile (m_handles s))));
        m_trace := EvClose TokensFile :: EvClose RolesFile
                   :: EvClose UsersFile :: EvClose RoutesFile :: m_trace s |}).
Proof. reflexivity. Qed.

(** Once the four files are open, every exit of the attempt closes the
    four handles and clears [isReloading]: normal return, skipped
    attempt, failure of [stat], of parsing, of validation or of index
    building, logged or rethrown. *)
Lemma reloadConfig_cleanup (fs : FileSystem) (now : Z) (s : Machine) :
  opens_ok fs →
  m_handles (reloadConfig fs now s).2 = m_handles s ∧
  isReloading (m_app (reloadConfig fs now s).2) = false.
Proof.
  intros Hopen. rewrite reloadConfig_opened by assumption.
  unfold M_finally.
  pose proof (keeps_handles_catch _ _ (keeps_handles_try fs)
                (keeps_handles_catch_block now) (opened s)) as Hkeep.
  destruct (M_catch _ _ (opened s)) as [r s'].
  rewrite reloadConfig_finally_spec. simpl in *. rewrite Hkeep.
  split; reflexivity.
Qed.

Lemma events_since_app (s s' : Machine) (evs : list Event) :
  m_trace s' = (evs ++ m_trace s)%list → events_since s s' = reverse evs.
Proof.
  intros Ht. unfold events_since. rewrite Ht, length_app.
  replace (length evs + length (m_trace s) - length (m_trace s))%nat
    with (length evs) by lia.
  by rewrite take_app_length.
Qed.

(** The load either performs the assignment computed by [loadConfig],
    after reading the four files, or throws what [loadConfig] throws,
    leaving [this] as it was; in both cases its first step is to read
    the routes file. *)
Lemma reloadConfig_load_spec (fs : FileSystem) (s : Machine) :
  match loadConfig fs with
  | Ok config =>
      reloadConfig_load fs s =
        (Ok tt,
         {| m_app := install config (m_app s);
            m_handles := m_handles s;
            m_trace := EvReloaded :: EvRead TokensFile :: EvRead RolesFile
                       :: EvRead UsersFile :: EvRead RoutesFile :: m_trace s |})
  | Throw e =>
      ∃ evs,
        reloadConfig_load fs s =
          (Throw e,
           {| m_app := m_app s;
              m_handles := m_handles s;
              m_trace := (evs ++ EvRead RoutesFile :: m_trace s)%list |})
        ∧ forallb is_read evs = true
  end.
Proof.
  unfold loadConfig, reloadConfig_load, read_doc, M_bind, M_lift, emit, update.
  simpl.
  destruct (fs_routes fs) as [routesDoc|e]; simpl; [|by exists []].
  destruct (require_key _ routesDoc) as [routesList|e]; simpl; [|by exists []].
  destruct (forEach validateRoute routesList) as [[]|e]; simpl; [|by exists []].
  destruct (fs_users fs) as [usersDoc|e]; simpl;
    [|by exists [EvRead UsersFile]].
  destruct (require_key _ usersDoc) as [usersList|e]; simpl;
    [|by exists [EvRead UsersFile]].
  destruct (forEach validateUser usersList) as [[]|e]; simpl;
    [|by exists [EvRead UsersFile]].
  destruct (getUserIndex usersList) as [userIdx|e]; simpl;
    [|by exists [EvRead UsersFile]].
  destruct (fs_roles fs) as [rolesDoc|e]; simpl;
    [|by exists [EvRead RolesFile; EvRead UsersFile]].
  destruct (require_key _ rolesDoc) as [rolesList|e]; simpl;
    [|by exists [EvRead RolesFile; EvRead UsersFile]].
  destruct (forEach validateRole rolesList) as [[]|e]; simpl;
    [|by exists [EvRead RolesFile; EvRead UsersFile]].
  destruct (getRoleIndex rolesList) as [roleIdx|e]; simpl;
    [|by exists [EvRead RolesFile; EvRead UsersFile]].
  destruct (fs_tokens fs) as [tokensDoc|e]; simpl;
    [|by exists [EvRead TokensFile; EvRead RolesFile; EvRead UsersFile]].
  destruct (require_key _ tokensDoc) as [tokensList|e]; simpl;
    [|by exists [EvRead TokensFile; EvRead RolesFile; EvRead UsersFile]].
  destruct (forEach validateToken tokensList) as [[]|e]; simpl;
    [|by exists [EvRead TokensFile; EvRead RolesFile; EvRead UsersFile]].
  destruct (getTokenIndex tokensList) as [tokenIdx|e]; simpl;
    [|by exists [EvRead TokensFile; EvRead RolesFile; EvRead UsersFile]].
  destruct (getGrantIndex userIdx roleIdx) as [grantIdx|e]; simpl;
    [|by exists [EvRead TokensFile; EvRead RolesFile; EvRead UsersFile]].
  reflexivity.
Qed.

Lemma reloadConfig_try_spec (fs : FileSystem) (s : Machine) (maxMTime : Z) :
  maxMTime_of fs = Ok maxMTime →
  reloadConfig_try fs s =
    if mtime_unchanged (m_app s) maxMTime
    then (Ok tt, stats_done s)
    else reloadConfig_load fs (mtime_recorded maxMTime (stats_done s)).
Proof.
  unfold maxMTime_of. intros Hmax.
  destruct (fs_mtimeMs fs RoutesFile) as [m1|] eqn:H1; [|discriminate].
  destruct (fs_mtimeMs fs UsersFile) as [m2|] eqn:H2; [|discriminate].
  destruct (fs_mtimeMs fs RolesFile) as [m3|] eqn:H3; [|discriminate].
  destruct (fs_mtimeMs fs TokensFile) as [m4|] eqn:H4; [|discriminate].
  simpl in Hmax. injection Hmax as <-.
  unfold reloadConfig_try, stat_mtimeMs, M_bind, M_lift, emit, this, update.
  simpl. rewrite H1. simpl. rewrite H2. simpl. rewrite H3. simpl.
  rewrite H4. simpl. unfold mtime_unchanged.
  destruct (truthy_num (lastReloadMTime (m_app s)) && _); reflexivity.
Qed.

Lemma snapshot_install (c : Config) (a : App) :
  snapshot (install c a) = config_snapshot c.
Proof. reflexivity. Qed.

(** An attempt that finds the recorded, non-zero mtime: nothing is read
    and the configuration stays. *)
Lemma reloadConfig_unchanged (fs : FileSystem) (now : Z) (s : Machine)
    (maxMTime : Z) :
  opens_ok fs →
  maxMTime_of fs = Ok maxMTime →
  lastReloadMTime (m_app s) = Some maxMTime →
  maxMTime ≠ 0 →
  ∃ s',
    reloadConfig fs now s = (Ok tt, s') ∧
    snapshot (m_app s') = snapshot (m_app s) ∧
    lastReloadMTime (m_app s') = Some maxMTime ∧
    events_since s s' =
      [EvOpen RoutesFile; EvOpen UsersFile; EvOpen RolesFile; EvOpen TokensFile;
       EvStat RoutesFile; EvStat UsersFile; EvStat RolesFile; EvStat TokensFile;
       EvClose RoutesFile; EvClose UsersFile; EvClose RolesFile;
       EvClose TokensFile].
Proof.
  intros Hopen Hmax Hlast Hnz.
  rewrite reloadConfig_opened by assumption.
  unfold M_finally, M_catch.
  rewrite (reloadConfig_try_spec fs _ maxMTime Hmax).
  unfold mtime_unchanged. simpl. rewrite Hlast. simpl.
  rewrite bool_decide_eq_true_2 by reflexivity.
  apply Z.eqb_neq in Hnz. rewrite Hnz. simpl.
  eexists. split; [reflexivity|]. simpl.
  split; [reflexivity|]. split; [assumption|].
  by rewrite (events_since_app _ _
    [EvClose TokensFile; EvClose RolesFile; EvClose UsersFile;
     EvClose RoutesFile; EvStat TokensFile; EvStat RolesFile;
     EvStat UsersFile; EvStat RoutesFile; EvOpen TokensFile;
     EvOpen RolesFile; EvOpen UsersFile; EvOpen RoutesFile]).
Qed.

(** An attempt that gets past the mtime test and whose load succeeds. *)
Lemma reloadConfig_succeeded (fs : FileSystem) (now : Z) (s : Machine)
    (maxMTime : Z) (config : Config) :
  opens_ok fs →
  maxMTime_of fs = Ok maxMTime →
  mtime_unchanged (m_app s) maxMTime = false →
  loadConfig fs = Ok config →
  ∃ s',
    reloadConfig fs now s = (Ok tt, s') ∧
    snapshot (m_app s') = config_snapshot config ∧
    lastReloadMTime (m_app s') = Some maxMTime ∧
    events_since s s' =
      [EvOpen RoutesFile; EvOpen UsersFile; EvOpen RolesFile; EvOpen TokensFile;
       EvStat RoutesFile; EvStat UsersFile; EvStat RolesFile; EvStat TokensFile;
       EvRead RoutesFile; EvRead UsersFile; EvRead RolesFile; EvRead TokensFile;
       EvReloaded;
       EvClose RoutesFile; EvClose UsersFile; EvClose RolesFile;
       EvClose TokensFile].
Proof.
  intros Hopen Hmax Hchanged Hload.
  rewrite reloadConfig_opened by assumption.
  unfold M_finally, M_catch.
  rewrite (reloadConfig_try_spec fs _ maxMTime Hmax).
  change (m_app (opened s)) with (set_isReloading true (m_app s)).
  change (mtime_unchanged (set_isReloading true (m_app s)) maxMTime)
    with (mtime_unchanged (m_app s) maxMTime).
  rewrite Hchanged.
  pose proof (reloadConfig_load_spec fs
                (mtime_recorded maxMTime (stats_done (opened s)))) as Hspec.
  rewrite Hload in Hspec. rewrite Hspec. simpl.
  eexists. split; [reflexivity|]. simpl.
  split; [reflexivity|]. split; [reflexivity|].
  by rewrite (events_since_app _ _
    [EvClose TokensFile; EvClose RolesFile; EvClose UsersFile;
     EvClose RoutesFile; EvReloaded; EvRead TokensFile; EvRead RolesFile;
     EvRead UsersFile; EvRead RoutesFile; EvStat TokensFile;
     EvStat RolesFile; EvStat UsersFile; EvStat RoutesFile;
     EvOpen TokensFile; EvOpen RolesFile; EvOpen UsersFile;
     EvOpen RoutesFile]).
Qed.

(** An attempt that gets past the mtime test and whose load fails: the
    mtime has been recorded, the routes file has been read, the
    configuration stays; the error is logged when an earlier attempt has
    completed and rethrown otherwise. *)
Lemma reloadConfig_failed (fs : FileSystem) (now : Z) (s : Machine)
    (maxMTime : Z) (err : Exn) :
  opens_ok fs →
  maxMTime_of fs = Ok maxMTime →
  mtime_unchanged (m_app s) maxMTime = false →
  loadConfig fs = Throw err →
  ∃ s',
    reloadConfig fs now s =
      (if truthy_num (lastReloadTime (m_app s)) then Ok tt else Throw err, s') ∧
    snapshot (m_app s') = snapshot (m_app s) ∧
    lastReloadMTime (m_app s') = Some maxMTime ∧
    lastReloadTime (m_app s') = Some now ∧
    isReloading (m_app s') = false ∧
    EvRead RoutesFile ∈ events_since s s' ∧
    (truthy_num (lastReloadTime (m_app s)) = true →
     EvError err ∈ events_since s s').
Proof.
  intros Hopen Hmax Hchanged Hload.
  rewrite reloadConfig_opened by assumption.
  unfold M_finally, M_catch.
  rewrite (reloadConfig_try_spec fs _ maxMTime Hmax).
  change (m_app (opened s)) with (set_isReloading true (m_app s)).
  change (mtime_unchanged (set_isReloading true (m_app s)) maxMTime)
    with (mtime_unchanged (m_app s) maxMTime).
  rewrite Hchanged.
  pose proof (reloadConfig_load_spec fs
                (mtime_recorded maxMTime (stats_done (opened s)))) as Hspec.
  rewrite Hload in Hspec. destruct Hspec as (evs & -> & Hreads).
  unfold reloadConfig_catch, M_bind, update, this, M_lift, emit. simpl.
  destruct (truthy_num (lastReloadTime (m_app s))) eqn:Hprior; simpl.
  - eexists. split; [reflexivity|]. simpl.
    repeat (split; [reflexivity|]).
    rewrite (events_since_app _ _
      ([EvClose TokensFile; EvClose RolesFile; EvClose UsersFile;
        EvClose RoutesFile; EvError err] ++ evs ++
       [EvRead RoutesFile; EvStat TokensFile; EvStat RolesFile;
        EvStat UsersFile; EvStat RoutesFile; EvOpen TokensFile;
        EvOpen RolesFile; EvOpen UsersFile; EvOpen RoutesFile]))
      by (simpl; by rewrite <- app_assoc).
    split; [|intros _]; rewrite elem_of_reverse;
      rewrite !elem_of_app, !elem_of_cons; tauto.
  - eexists. split; [reflexivity|]. simpl.
    repeat (split; [reflexivity|]).
    rewrite (events_since_app _ _
      ([EvClose TokensFile; EvClose RolesFile; EvClose UsersFile;
        EvClose RoutesFile] ++ evs ++
       [EvRead RoutesFile; EvStat TokensFile; EvStat RolesFile;
        EvStat UsersFile; EvStat RoutesFile; EvOpen TokensFile;
        EvOpen RolesFile; EvOpen UsersFile; EvOpen RoutesFile]))
      by (simpl; by rewrite <- app_assoc).
    split; [|discriminate]. rewrite elem_of_reverse.
    rewrite !elem_of_app, !elem_of_cons. tauto.
Qed.

End ReloadFacts.

(** ** The examples, evaluated *)

Lemma app_loaded_indices :
  routes app_loaded = Some [route_public; route_hosted; route_api] ∧
  userIndex app_loaded = Some users_loaded ∧
  roleIndex app_loaded = Some roles_loaded ∧
  tokenIndex app_loaded = Some tokens_loaded ∧
  grantIndex app_loaded = Some grants_loaded ∧
  authHeaders app_loaded = ["x-authorization"; "x-token"].
Proof. vm_compute. repeat split. Qed.




Lemma getRoute_first_match_witness :
  ∃ matches,
    @path_matches PrefixEngine (route_path route_api) "/hostroute" = Some matches ∧
    @getRoute PrefixEngine app_loaded "GET" "/hostroute" None =
      Ok (Some (route_api, matches)).
Proof.
  assert (Hrs : routes app_loaded = Some [route_public; route_hosted; route_api])
    by (vm_compute; reflexivity).
  assert (Hvalid : Forall (fun r => @validateRoute PrefixEngine r = Ok tt)
                     [route_public; route_hosted; route_api])
    by (repeat constructor).
  destruct (@getRoute_first_match PrefixEngine app_loaded _ "GET" "/hostroute"
              None Hrs Hvalid) as [Hfirst _].
  apply (Hfirst [route_public; route_hosted] route_api []).
  - reflexivity.
  - repeat constructor.
  - reflexivity.
Defined.


(** ** Reload: the claims *)

(** A recorded mtime of [0] never passes for unchanged. *)
Lemma mtime_unchanged_zero (a : App) (maxMTime : Z) :
  lastReloadMTime a = Some 0 → mtime_unchanged a maxMTime = false.
Proof. intros Hzero. unfold mtime_unchanged. by rewrite Hzero. Qed.

Section ReloadClaims.
Context `{RegexEngine}.

(** After a failed attempt that recorded a non-zero mtime, a tick that
    finds the same maximum mtime reads nothing. *)
Lemma reload_failure_then_same_mtime (fs fs2 : FileSystem) (now now2 : Z)
    (s : Machine) (maxMTime : Z) (err : Exn) :
  opens_ok fs →
  maxMTime_of fs = Ok maxMTime →
  mtime_unchanged (m_app s) maxMTime = false →
  loadConfig fs = Throw err →
  opens_ok fs2 →
  maxMTime_of fs2 = Ok maxMTime →
  maxMTime ≠ 0 →
  ∃ s1 s2,
    (reloadConfig fs now s).2 = s1 ∧
    tick fs2 now2 s1 = (Ok tt, s2) ∧
    snapshot (m_app s2) = snapshot (m_app s) ∧
    forallb (fun ev => negb (is_read ev)) (events_since s1 s2) = true.
Proof.
  intros Hopen Hmax Hchanged Hload Hopen2 Hmax2 Hnz.
  destruct (reloadConfig_failed fs now s maxMTime err Hopen Hmax Hchanged Hload)
    as (s1 & Hrun & Hsnap & Hrec & _ & Hflag & _).
  destruct (reloadConfig_unchanged fs2 now2 s1 maxMTime Hopen2 Hmax2 Hrec Hnz)
    as (s2 & Hrun2 & Hsnap2 & _ & Hevents).
  exists s1, s2. rewrite Hrun. split; [reflexivity|].
  split; [|split].
  - unfold tick, M_bind, this. by rewrite Hflag.
  - congruence.
  - by rewrite Hevents.
Qed.

(** C5 (amended).  Let a reload attempt get past the mtime test and fail
    while parsing, validating or building the indices, at a time when an
    earlier attempt has completed.  The attempt returns normally, the
    error is logged, and the configuration served is the one from
    before.  On a subsequent tick where the maximum mtime of the four
    files differs from the one the failed attempt recorded, the files
    are read again and the whole load is run again: if it succeeds its
    values are installed, and if it fails the earlier configuration is
    still the one served. *)
Theorem reload_failure_retry_on_mtime_change (fs fs2 : FileSystem)
    (now now2 : Z) (s : Machine) (maxMTime maxMTime2 : Z) (err : Exn) :
  opens_ok fs →
  maxMTime_of fs = Ok maxMTime →
  mtime_unchanged (m_app s) maxMTime = false →
  loadConfig fs = Throw err →
  truthy_num (lastReloadTime (m_app s)) = true →
  opens_ok fs2 →
  maxMTime_of fs2 = Ok maxMTime2 →
  maxMTime2 ≠ maxMTime →
  ∃ s1 r2 s2,
    reloadConfig fs now s = (Ok tt, s1) ∧
    snapshot (m_app s1) = snapshot (m_app s) ∧
    EvError err ∈ events_since s s1 ∧
    tick fs2 now2 s1 = (r2, s2) ∧
    EvRead RoutesFile ∈ events_since s1 s2 ∧
    match loadConfig fs2 with
    | Ok config => r2 = Ok tt ∧ snapshot (m_app s2) = config_snapshot config
    | Throw _ => snapshot (m_app s2) = snapshot (m_app s)
    end.
Proof.
  intros Hopen Hmax Hchanged Hload Hprior Hopen2 Hmax2 Hne.
  destruct (reloadConfig_failed fs now s maxMTime err Hopen Hmax Hchanged Hload)
    as (s1 & Hrun & Hsnap & Hrec & Htime & Hflag & _ & Hlogged).
  rewrite Hprior in Hrun.
  assert (Hchanged2 : mtime_unchanged (m_app s1) maxMTime2 = false).
  { unfold mtime_unchanged. rewrite Hrec.
    rewrite bool_decide_eq_false_2 by congruence. apply andb_false_r. }
  assert (Htick : tick fs2 now2 s1 = reloadConfig fs2 now2 s1).
  { unfold tick, M_bind, this. by rewrite Hflag. }
  destruct (loadConfig fs2) as [config|err2] eqn:Hload2.
  - destruct (reloadConfig_succeeded fs2 now2 s1 maxMTime2 config
                Hopen2 Hmax2 Hchanged2 Hload2)
      as (s2 & Hrun2 & Hsnap2 & _ & Hevents).
    exists s1, (Ok tt), s2. rewrite Htick.
    repeat split; auto.
    rewrite Hevents. apply list_elem_of_In. simpl. tauto.
  - destruct (reloadConfig_failed fs2 now2 s1 maxMTime2 err2
                Hopen2 Hmax2 Hchanged2 Hload2)
      as (s2 & Hrun2 & Hsnap2 & _ & _ & _ & Hread & _).
    eexists s1, _, s2. rewrite Htick.
    repeat split; eauto. congruence.
Qed.

End ReloadClaims.

Lemma reload_failure_retry_on_mtime_change_witness :
  ∃ s1 r2 s2,
    @reloadConfig PrefixEngine (fs_bad_routes 6) 2000
       (machine_loaded 5 1000 [token_john; token_alice]) = (Ok tt, s1) ∧
    snapshot (m_app s1) =
      snapshot (m_app (machine_loaded 5 1000 [token_john; token_alice])) ∧
    EvError (SyntaxError "bad indentation") ∈
      events_since (machine_loaded 5 1000 [token_john; token_alice]) s1 ∧
    @tick PrefixEngine (fs_valid 7 [token_john; token_alice; token_jeff]) 3000 s1
      = (r2, s2) ∧
    EvRead RoutesFile ∈ events_since s1 s2 ∧
    match @loadConfig PrefixEngine
            (fs_valid 7 [token_john; token_alice; token_jeff]) with
    | Ok config => r2 = Ok tt ∧ snapshot (m_app s2) = config_snapshot config
    | Throw _ =>
        snapshot (m_app s2) =
          snapshot (m_app (machine_loaded 5 1000 [token_john; token_alice]))
    end.
Proof.
  apply (@reload_failure_retry_on_mtime_change PrefixEngine
           (fs_bad_routes 6) (fs_valid 7 [token_john; token_alice; token_jeff])
           2000 3000 (machine_loaded 5 1000 [token_john; token_alice]) 6 7
           (SyntaxError "bad indentation")).
  - intros f. reflexivity.
  - reflexivity.
  - vm_compute. reflexivity.
  - reflexivity.
  - vm_compute. reflexivity.
  - intros f. reflexivity.
  - reflexivity.
  - lia.
Defined.

(** C5 (as stated, refuted).  The application has loaded a configuration
    (mtime 5).  The routes file is then replaced by one that does not
    parse (mtime 6): the attempt logs the error and keeps the
    configuration.  On the next tick the files are as the failed attempt
    left them.  The tick opens, stats and closes the four files and
    returns: no file is read, nothing is parsed, validated or built. *)
Lemma reload_no_retry_when_mtime_unchanged :
  let s0 := machine_loaded 5 1000 [token_john; token_alice] in
  let fs := fs_bad_routes 6 in
  let attempt := @reloadConfig PrefixEngine fs 2000 s0 in
  let next := @tick PrefixEngine fs 3000 attempt.2 in
  truthy_num (lastReloadTime (m_app s0)) = true
  ∧ @loadConfig PrefixEngine fs = Throw (SyntaxError "bad indentation")
  ∧ attempt.1 = Ok tt
  ∧ snapshot (m_app attempt.2) = snapshot (m_app s0)
  ∧ events_since s0 attempt.2 =
      [EvOpen RoutesFile; EvOpen UsersFile; EvOpen RolesFile; EvOpen TokensFile;
       EvStat RoutesFile; EvStat UsersFile; EvStat RolesFile; EvStat TokensFile;
       EvRead RoutesFile; EvError (SyntaxError "bad indentation");
       EvClose RoutesFile; EvClose UsersFile; EvClose RolesFile;
       EvClose TokensFile]
  ∧ maxMTime_of fs = Ok 6
  ∧ lastReloadMTime (m_app attempt.2) = Some 6
  ∧ next.1 = Ok tt
  ∧ events_since attempt.2 next.2 =
      [EvOpen RoutesFile; EvOpen UsersFile; EvOpen RolesFile; EvOpen TokensFile;
       EvStat RoutesFile; EvStat UsersFile; EvStat RolesFile; EvStat TokensFile;
       EvClose RoutesFile; EvClose UsersFile; EvClose RolesFile;
       EvClose TokensFile]
  ∧ (EvRead RoutesFile ∉ events_since attempt.2 next.2).
Proof.
  cbv zeta. repeat (split; [vm_compute; reflexivity|]).
  intros Hin.
  assert (Hread : existsb is_read
                    (events_since
                       (@reloadConfig PrefixEngine (fs_bad_routes 6) 2000
                          (machine_loaded 5 1000 [token_john; token_alice])).2
                       (@tick PrefixEngine (fs_bad_routes 6) 3000
                          (@reloadConfig PrefixEngine (fs_bad_routes 6) 2000
                             (machine_loaded 5 1000
                                [token_john; token_alice])).2).2) = true).
  { apply existsb_exists. exists (EvRead RoutesFile).
    split; [by apply list_elem_of_In|reflexivity]. }
  vm_compute in Hread. discriminate.
Qed.

(** C6 (the code diverges).  The four [fs.open] calls come before the
    [try]: when the second one fails, the attempt terminates with that
    error, the routes handle opened just before stays open, and
    [isReloading] stays [true]; from then on every tick is skipped,
    whatever the files hold.  (Once all four files are open, every exit
    does close them and clear the flag: [reloadConfig_cleanup].) *)
Theorem reloadConfig_open_failure_leaks :
  let s0 := machine_loaded 5 1000 [token_john; token_alice] in
  let attempt := @reloadConfig PrefixEngine (fs_users_missing 6) 2000 s0 in
  m_handles s0 = []
  ∧ isReloading (m_app s0) = false
  ∧ attempt.1 = Throw (IOError "ENOENT: no such file or directory")
  ∧ events_since s0 attempt.2 = [EvOpen RoutesFile]
  ∧ m_handles attempt.2 = [RoutesFile]
  ∧ isReloading (m_app attempt.2) = true
  ∧ (∀ fs now, @tick PrefixEngine fs now attempt.2 = (Ok tt, attempt.2)).
Proof.
  cbv zeta. repeat (split; [vm_compute; reflexivity|]).
  intros fs now. unfold tick, M_bind, this.
  replace (isReloading (m_app (@reloadConfig PrefixEngine (fs_users_missing 6)
             2000 (machine_loaded 5 1000 [token_john; token_alice])).2))
    with true by (vm_compute; reflexivity).
  reflexivity.
Qed.

(** C8 (the code diverges).  The mtime test is guarded by the truthiness
    of [this.lastReloadMTime], and [0] is falsy.  Four files whose mtime
    is the epoch are loaded; the recorded mtime is [0].  On the next
    attempt the maximum mtime is still [0], equal to the recorded one, yet
    the files are read and the configuration is replaced: a token added to
    the tokens file in the meantime is now served.  (With a non-zero
    recorded mtime the attempt reads nothing and changes nothing:
    [reloadConfig_unchanged].) *)
Theorem reloadConfig_zero_mtime_reloads :
  let s0 := machine_loaded 0 1000 [token_john; token_alice] in
  let fs := fs_valid 0 [token_john; token_alice; token_jeff] in
  let attempt := @reloadConfig PrefixEngine fs 2000 s0 in
  lastReloadMTime (m_app s0) = Some 0
  ∧ maxMTime_of fs = Ok 0
  ∧ attempt.1 = Ok tt
  ∧ events_since s0 attempt.2 =
      [EvOpen RoutesFile; EvOpen UsersFile; EvOpen RolesFile; EvOpen TokensFile;
       EvStat RoutesFile; EvStat UsersFile; EvStat RolesFile; EvStat TokensFile;
       EvRead RoutesFile; EvRead UsersFile; EvRead RolesFile; EvRead TokensFile;
       EvReloaded;
       EvClose RoutesFile; EvClose UsersFile; EvClose RolesFile;
       EvClose TokensFile]
  ∧ tokenIndex (m_app s0) = Some {[ "T1" := "john"; "T2" := "alice" ]}
  ∧ tokenIndex (m_app attempt.2) =
      Some {[ "T1" := "john"; "T2" := "alice"; "T3" := "jeff" ]}
  ∧ snapshot (m_app attempt.2) ≠ snapshot (m_app s0).
Proof.
  cbv zeta. repeat (split; [vm_compute; reflexivity|]).
  intros Heq.
  assert (Ht : tokens (m_app (@reloadConfig PrefixEngine
                 (fs_valid 0 [token_john; token_alice; token_jeff]) 2000
                 (machine_loaded 0 1000 [token_john; token_alice])).2) =
               tokens (m_app (machine_loaded 0 1000 [token_john; token_alice]))).
  { unfold snapshot in Heq. congruence. }
  vm_compute in Ht. discriminate.
Qed.

(** ** Option defaults *)

Lemma metricsPort_unset (env : gmap string string) :
  env !! "METRICS_PORT" = None → start_metricsPort env = 8181.
Proof.
  intros Hunset. unfold start_metricsPort, defaults. simpl.
  by rewrite Hunset.
Qed.

Lemma metricsPort_set (env : gmap string string) (value : string) (n : Z) :
  env !! "METRICS_PORT" = Some value →
  StringToNumber value = Num n →
  start_metricsPort env = Z.lor (ToInt32 (Num n)) 8181.
Proof.
  intros Hset Hnum. unfold start_metricsPort, defaults. simpl.
  rewrite Hset. simpl. by rewrite Hnum.
Qed.

(** C9 (the code diverges).  The default is combined with the bitwise
    [|], not with [||] as for [HTTP_PORT].  With [METRICS_PORT=9090] the
    metrics port is [9090 | 8181 = 16375], not [9090]; the same value for
    [HTTP_PORT] gives the port [9090].  With the variable unset the port
    is [8181], as claimed. *)
Theorem metricsPort_bitwise_or :
  StringToNumber "9090" = Num 9090
  ∧ start_metricsPort {[ "METRICS_PORT" := "9090" ]} = 16375
  ∧ start_port {[ "HTTP_PORT" := "9090" ]} = 9090
  ∧ start_metricsPort ∅ = 8181
  ∧ start_port ∅ = 8080.
Proof. vm_compute. repeat split. Qed.

(** * Further code: properties *)

(** ** Keyed index builders *)














(** ** Grants *)




























(** ** Route matcher and validators *)

Lemma truthy_str_true (s : string) : truthy_str s = true ↔ s ≠ "".
Proof.
  unfold truthy_str. rewrite negb_true_iff. apply String.eqb_neq.
Qed.

Lemma forEach_Throw {A} (body : A → Res unit) (l : list A) (e : Exn) :
  forEach body l = Throw e → ∃ x, x ∈ l ∧ body x = Throw e.
Proof.
  induction l as [|x l IH]; simpl; [discriminate|].
  destruct (body x) as [[]|e'] eqn:Hx; simpl.
  - intros Hl. destruct (IH Hl) as (y & Hy & Hb).
    exists y. split; [by apply list_elem_of_further|done].
  - intros [= <-]. exists x. split; [apply list_elem_of_here|done].
Qed.

Section RouteFacts.
Context `{RegexEngine}.

Lemma getRoute_loop_sound (rs : list Route) (method path host : string) :
  Forall (fun r => validateRoute r = Ok tt) rs →
  (∃ found, getRoute_loop rs method path host = Ok found) ∧
  (∀ route matches,
     getRoute_loop rs method path host = Ok (Some (route, matches)) →
     ∃ pre post,
       rs = (pre ++ route :: post)%list ∧
       Forall (fun r => route_satisfies r method path host = false) pre ∧
       route_satisfies route method path host = true ∧
       path_matches (route_path route) path = Some matches) ∧
  (getRoute_loop rs method path host = Ok None →
   Forall (fun r => route_satisfies r method path host = false) rs).
Proof.
  induction 1 as [|r rs Hr Hrs (IHtotal & IHsome & IHnone)].
  - simpl. split; [eauto|]. split; [discriminate|]. constructor.
  - rewrite getRoute_loop_step by assumption.
    destruct (route_satisfies r method path host) eqn:Hsat.
    + assert (Hpath : ∃ m, path_matches (route_path r) path = Some m).
      { unfold route_satisfies in Hsat.
        apply andb_true_iff in Hsat as [_ Hp].
        destruct (path_matches (route_path r) path); [eauto|discriminate]. }
      destruct Hpath as [m Hm]. rewrite Hm.
      split; [eauto|]. split; [|discriminate].
      intros route matches [= <- <-]. exists [], rs.
      split; [done|]. split; [constructor|]. done.
    + split; [assumption|]. split.
      * intros route matches Hfound.
        destruct (IHsome route matches Hfound)
          as (pre & post & -> & Hpre & Hroute & Hm).
        exists (r :: pre), post. split; [done|].
        split; [by constructor|]. done.
      * intros Hnone. constructor; [assumption|]. by apply IHnone.
Qed.


(** X9.  A route whose [methods] or [hosts] is the empty list is never
    returned, whatever the request: an empty list is not treated like an
    absent key. *)
Theorem getRoute_empty_lists_never_match (app : App) (rs : list Route)
    (method path : string) (host : option string) (route : Route)
    (matches : Matches) :
  routes app = Some rs →
  Forall (fun r => validateRoute r = Ok tt) rs →
  getRoute app method path host = Ok (Some (route, matches)) →
  route_methods route ≠ Some [] ∧ route_hosts route ≠ Some [].
Proof.
  intros Hrs Hvalid Hfound. unfold getRoute in Hfound. rewrite Hrs in Hfound.
  destruct (getRoute_loop_sound rs method path
              (match host with Some h => h | None => "" end) Hvalid)
    as (_ & Hsome & _).
  destruct (Hsome route matches Hfound) as (pre & post & _ & _ & Hsat & _).
  unfold route_satisfies in Hsat.
  apply andb_true_iff in Hsat as [Hsat _].
  apply andb_true_iff in Hsat as [Hm Hh].
  split; intros Heq; rewrite Heq in *; simpl in *; discriminate.
Qed.


End RouteFacts.


Lemma getRoute_empty_lists_never_match_witness :
  route_methods route_hosted ≠ Some [] ∧ route_hosts route_hosted ≠ Some [].
Proof.
  apply (@getRoute_empty_lists_never_match PrefixEngine app_loaded
           [route_public; route_hosted; route_api] "GET" "/hostroute"
           (Some "alpha.example") route_hosted ["/hostroute"]).
  - vm_compute. reflexivity.
  - repeat constructor.
  - vm_compute. reflexivity.
Defined.

(** X11.  [validateUser] accepts exactly the records with a non-empty
    name whose role names, if the [roles] key is present, are all
    non-empty; [validateRole] exactly the roles with a non-empty name whose
    grants all have a non-empty resource; [validateToken] exactly the
    tokens whose [token] and [user] are both non-empty. *)
Theorem validate_records_spec :
  (∀ user,
     validateUser user = Ok tt ↔
     user_name user ≠ "" ∧
     ∀ roleNames, user_roles user = Some roleNames →
                  Forall (fun n => n ≠ "") roleNames)
  ∧
  (∀ role,
     validateRole role = Ok tt ↔
     role_name role ≠ "" ∧
     Forall (fun g => grant_resource g ≠ "") (role_grants role))
  ∧
  (∀ token,
     validateToken token = Ok tt ↔
     token_token token ≠ "" ∧ token_user token ≠ "").
Proof.
  split; [|split].
  - intros user. unfold validateUser.
    destruct (truthy_str (user_name user)) eqn:Hn; simpl.
    + apply truthy_str_true in Hn.
      destruct (user_roles user) as [roleNames|]; simpl.
      * destruct (forEach validateRoleName roleNames) as [[]|e] eqn:Hall; simpl.
        -- split; [|done]. intros _. split; [done|].
           intros names [= <-]. apply forEach_Ok in Hall.
           eapply Forall_impl; [exact Hall|]. intros n. unfold validateRoleName.
           destruct (truthy_str n) eqn:Ht; simpl; [|discriminate].
           intros _. by apply truthy_str_true.
        -- split; [discriminate|]. intros [_ Hall'].
           specialize (Hall' roleNames eq_refl).
           apply forEach_Throw in Hall as (n & Hin & Hbad).
           rewrite Forall_forall in Hall'. specialize (Hall' n Hin).
           apply truthy_str_true in Hall'. unfold validateRoleName in Hbad.
           rewrite Hall' in Hbad. discriminate.
      * split; [|done]. intros _. split; [done|]. discriminate.
    + split; [discriminate|]. intros [Hne _].
      apply truthy_str_true in Hne. congruence.
  - intros role. unfold validateRole.
    destruct (truthy_str (role_name role)) eqn:Hn; simpl.
    + apply truthy_str_true in Hn. rewrite forEach_Ok. split.
      * intros Hall. split; [done|]. eapply Forall_impl; [exact Hall|].
        intros g. unfold validateGrant.
        destruct (truthy_str (grant_resource g)) eqn:Ht; simpl; [|discriminate].
        intros _. by apply truthy_str_true.
      * intros [_ Hall]. eapply Forall_impl; [exact Hall|].
        intros g Hg. apply truthy_str_true in Hg. unfold validateGrant.
        by rewrite Hg.
    + split; [discriminate|]. intros [Hne _].
      apply truthy_str_true in Hne. congruence.
  - intros token. unfold validateToken.
    destruct (truthy_str (token_token token)) eqn:Ht; simpl.
    + apply truthy_str_true in Ht.
      destruct (truthy_str (token_user token)) eqn:Hu; simpl.
      * apply truthy_str_true in Hu. done.
      * split; [discriminate|]. intros [_ Hne].
        apply truthy_str_true in Hne. congruence.
    + split; [discriminate|]. intros [Hne _].
      apply truthy_str_true in Hne. congruence.
Qed.

(** ** Request dispatcher *)



Section DispatchFacts.
Context `{RegexEngine}.


(** X13.  Whenever the dispatcher forwards a request, it does so to the
    target of the route the matcher returned, and either that route is
    anonymous and the user is the literal [anonymous], or the route is not
    anonymous, the authenticator returned that non-empty user name, and
    the authorizer allowed it for the route's resource and the request
    method. *)
Theorem serve_forwarded_authorized (app : App) (req : Request) (user : string)
    (resource : option string) (target : string) :
  serve app req = Ok (Forwarded user resource target) →
  ∃ route matches,
    getRoute app (req_method req) (req_url req) (req_headers req !! "host")
      = Ok (Some (route, matches)) ∧
    resource = route_resource route ∧
    target = route_proxy_target route ∧
    ((truthy_bool (route_anonymous route) = true ∧ user = "anonymous")
     ∨
     (truthy_bool (route_anonymous route) = false ∧
      authenticate app req = Ok (Some user) ∧
      user ≠ "" ∧
      authorize app user (resource_key resource) (req_method req) = Ok true)).
Proof.
  unfold serve.
  destruct (getRoute app (req_method req) (req_url req)
              (req_headers req !! "host")) as [[[route matches]|]|e];
    simpl; try discriminate.
  destruct (truthy_bool (route_anonymous route)) eqn:Hanon.
  - intros [= <- <- <-]. exists route, matches. repeat split. by left.
  - destruct (authenticate app req) as [[userName|]|e]; simpl;
      try discriminate.
    destruct (truthy_str userName) eqn:Hname; simpl; [|discriminate].
    destruct (authorize app userName (resource_key (route_resource route))
                (req_method req)) as [[]|e] eqn:Hauth; simpl;
      try discriminate.
    intros [= <- <- <-]. exists route, matches. repeat split. right.
    repeat split; try done. by apply truthy_str_true.
Qed.

(** X14.  The route decides before any credential is looked at.  Over
    validated routes, a request that no route matches gets [404], and a
    request whose first matching route is anonymous is forwarded as
    [anonymous], whatever auth headers the request carries and whatever
    the token, user and grant indices hold. *)
Theorem serve_route_first (app : App) (req : Request) (rs : list Route) :
  routes app = Some rs →
  Forall (fun r => validateRoute r = Ok tt) rs →
  (Forall (fun r => route_satisfies r (req_method req) (req_url req)
                      (host_value (req_headers req !! "host")) = false) rs →
   serve app req = Ok NotFound)
  ∧
  (∀ pre route post,
     rs = (pre ++ route :: post)%list →
     Forall (fun r => route_satisfies r (req_method req) (req_url req)
                        (host_value (req_headers req !! "host")) = false) pre →
     route_satisfies route (req_method req) (req_url req)
       (host_value (req_headers req !! "host")) = true →
     truthy_bool (route_anonymous route) = true →
     serve app req =
       Ok (Forwarded "anonymous" (route_resource route)
                     (route_proxy_target route))).
Proof.
  intros Hrs Hvalid. unfold serve, getRoute. rewrite Hrs.
  change (match req_headers req !! "host" with Some h => h | None => "" end)
    with (host_value (req_headers req !! "host")).
  split.
  - intros Hnone. rewrite <- (app_nil_r rs).
    by rewrite getRoute_loop_skip.
  - intros pre route post -> Hpre Hsat Hanon.
    apply Forall_app in Hvalid as [Hvpre Hvrest].
    apply Forall_cons in Hvrest as [Hvroute _].
    rewrite getRoute_loop_skip by assumption.
    rewrite getRoute_loop_step by assumption. rewrite Hsat.
    unfold route_satisfies in Hsat. apply andb_true_iff in Hsat as [_ Hpath].
    destruct (path_matches (route_path route) (req_url req)); [|discriminate].
    simpl. by rewrite Hanon.
Qed.

End DispatchFacts.


Lemma serve_forwarded_authorized_witness :
  ∃ route matches,
    @getRoute PrefixEngine app_loaded (req_method req_john_get)
      (req_url req_john_get) (req_headers req_john_get !! "host")
      = Ok (Some (route, matches)) ∧
    Some "api" = route_resource route ∧
    "http://upstream" = route_proxy_target route ∧
    ((truthy_bool (route_anonymous route) = true ∧ "john" = "anonymous")
     ∨
     (truthy_bool (route_anonymous route) = false ∧
      authenticate app_loaded req_john_get = Ok (Some "john") ∧
      "john" ≠ "" ∧
      authorize app_loaded "john" (resource_key (Some "api"))
                (req_method req_john_get) = Ok true)).
Proof.
  apply (@serve_forwarded_authorized PrefixEngine app_loaded req_john_get
           "john" (Some "api") "http://upstream").
  vm_compute. reflexivity.
Defined.

Lemma serve_route_first_witness :
  @serve PrefixEngine app_loaded req_public =
    Ok (Forwarded "anonymous" (Some "pub") "http://upstream").
Proof.
  assert (Hrs : routes app_loaded = Some [route_public; route_hosted; route_api])
    by (vm_compute; reflexivity).
  assert (Hvalid : Forall (fun r => @validateRoute PrefixEngine r = Ok tt)
                     [route_public; route_hosted; route_api])
    by (repeat constructor).
  destruct (@serve_route_first PrefixEngine app_loaded req_public _ Hrs Hvalid)
    as [_ Hanon].
  apply (Hanon [] route_public [route_hosted; route_api]).
  - reflexivity.
  - constructor.
  - vm_compute. reflexivity.
  - reflexivity.
Defined.

(** ** Reload: further properties *)

Section ReloadMore.
Context `{RegexEngine}.

Lemma reloadConfig_try_stat_failure (fs : FileSystem) (s : Machine) (e : Exn) :
  maxMTime_of fs = Throw e →
  ∃ evs,
    reloadConfig_try fs s =
      (Throw e, {| m_app := m_app s; m_handles := m_handles s;
                   m_trace := (evs ++ m_trace s)%list |}) ∧
    no_read evs.
Proof.
  unfold maxMTime_of, reloadConfig_try, stat_mtimeMs, M_bind, M_lift, emit.
  simpl. intros Hmax.
  destruct (fs_mtimeMs fs RoutesFile) as [m1|e1]; simpl in *.
  - destruct (fs_mtimeMs fs UsersFile) as [m2|e2]; simpl in *.
    + destruct (fs_mtimeMs fs RolesFile) as [m3|e3]; simpl in *.
      * destruct (fs_mtimeMs fs TokensFile) as [m4|e4]; simpl in *;
          [discriminate|].
        injection Hmax as ->.
        exists [EvStat TokensFile; EvStat RolesFile; EvStat UsersFile;
                EvStat RoutesFile].
        split; [reflexivity|]. by repeat constructor.
      * injection Hmax as ->.
        exists [EvStat RolesFile; EvStat UsersFile; EvStat RoutesFile].
        split; [reflexivity|]. by repeat constructor.
    + injection Hmax as ->. exists [EvStat UsersFile; EvStat RoutesFile].
      split; [reflexivity|]. by repeat constructor.
  - injection Hmax as ->. exists [EvStat RoutesFile].
    split; [reflexivity|]. by repeat constructor.
Qed.

Lemma no_read_events_since (s s' : Machine) (evs : list Event) :
  m_trace s' = (evs ++ m_trace s)%list → no_read evs →
  no_read (events_since s s').
Proof.
  intros Ht Hevs. rewrite (events_since_app s s' evs Ht).
  unfold no_read. by apply Forall_reverse.
Qed.

(** Every way an attempt can go once the four files are open. *)
Lemma reloadConfig_cases (fs : FileSystem) (now : Z) (s : Machine) :
  opens_ok fs →
  (m_handles (reloadConfig fs now s).2 = m_handles s ∧
   isReloading (m_app (reloadConfig fs now s).2) = false ∧
   lastReloadTime (m_app (reloadConfig fs now s).2) = Some now ∧
   lastReloadErrorTime (m_app (reloadConfig fs now s).2) = None)
  ∧
  match maxMTime_of fs with
  | Throw e =>
      (reloadConfig fs now s).1 =
        (if truthy_num (lastReloadTime (m_app s)) then Ok tt else Throw e) ∧
      snapshot (m_app (reloadConfig fs now s).2) = snapshot (m_app s) ∧
      lastReloadMTime (m_app (reloadConfig fs now s).2) =
        lastReloadMTime (m_app s) ∧
      no_read (events_since s (reloadConfig fs now s).2)
  | Ok maxMTime =>
      if mtime_unchanged (m_app s) maxMTime
      then
        (reloadConfig fs now s).1 = Ok tt ∧
        snapshot (m_app (reloadConfig fs now s).2) = snapshot (m_app s) ∧
        lastReloadMTime (m_app (reloadConfig fs now s).2) =
          lastReloadMTime (m_app s) ∧
        no_read (events_since s (reloadConfig fs now s).2)
      else
        match loadConfig fs with
        | Ok config =>
            (reloadConfig fs now s).1 = Ok tt ∧
            snapshot (m_app (reloadConfig fs now s).2) = config_snapshot config ∧
            lastReloadMTime (m_app (reloadConfig fs now s).2) = Some maxMTime
        | Throw e =>
            (reloadConfig fs now s).1 =
              (if truthy_num (lastReloadTime (m_app s)) then Ok tt else Throw e) ∧
            snapshot (m_app (reloadConfig fs now s).2) = snapshot (m_app s) ∧
            lastReloadMTime (m_app (reloadConfig fs now s).2) = Some maxMTime
        end
  end.
Proof.
  intros Hopen. rewrite reloadConfig_opened by assumption.
  unfold M_finally, M_catch.
  destruct (maxMTime_of fs) as [maxMTime|e] eqn:Hmax.
  - rewrite (reloadConfig_try_spec fs _ maxMTime Hmax).
    change (mtime_unchanged (m_app (opened s)) maxMTime)
      with (mtime_unchanged (m_app s) maxMTime).
    destruct (mtime_unchanged (m_app s) maxMTime) eqn:Hgate.
    + simpl. repeat split.
      apply (no_read_events_since _ _
        [EvClose TokensFile; EvClose RolesFile; EvClose UsersFile;
         EvClose RoutesFile; EvStat TokensFile; EvStat RolesFile;
         EvStat UsersFile; EvStat RoutesFile; EvOpen TokensFile;
         EvOpen RolesFile; EvOpen UsersFile; EvOpen RoutesFile]);
        [reflexivity|by repeat constructor].
    + pose proof (reloadConfig_load_spec fs
                    (mtime_recorded maxMTime (stats_done (opened s)))) as Hspec.
      destruct (loadConfig fs) as [config|e] eqn:Hload.
      * rewrite Hspec. simpl. repeat split.
      * destruct Hspec as (evs & -> & _).
        unfold reloadConfig_catch, M_bind, update, this, M_lift, emit. simpl.
        destruct (truthy_num (lastReloadTime (m_app s))); simpl; repeat split.
  - destruct (reloadConfig_try_stat_failure fs (opened s) e Hmax)
      as (evs & -> & Hevs).
    unfold reloadConfig_catch, M_bind, update, this, M_lift, emit. simpl.
    destruct (truthy_num (lastReloadTime (m_app s))); simpl; repeat split.
    + apply (no_read_events_since _ _
        ([EvClose TokensFile; EvClose RolesFile; EvClose UsersFile;
          EvClose RoutesFile; EvError e] ++ evs ++
         [EvOpen TokensFile; EvOpen RolesFile; EvOpen UsersFile;
          EvOpen RoutesFile])).
      * simpl. by rewrite <- app_assoc.
      * unfold no_read in *. rewrite !Forall_app. repeat split; try done;
          by repeat constructor.
    + apply (no_read_events_since _ _
        ([EvClose TokensFile; EvClose RolesFile; EvClose UsersFile;
          EvClose RoutesFile] ++ evs ++
         [EvOpen TokensFile; EvOpen RolesFile; EvOpen UsersFile;
          EvOpen RoutesFile])).
      * simpl. by rewrite <- app_assoc.
      * unfold no_read in *. rewrite !Forall_app. repeat split; try done;
          by repeat constructor.
Qed.

End ReloadMore.

Section ReloadExtras.
Context `{RegexEngine}.

Lemma opens_ok_intro (fs : FileSystem) :
  fs_open fs RoutesFile = Ok tt → fs_open fs UsersFile = Ok tt →
  fs_open fs RolesFile = Ok tt → fs_open fs TokensFile = Ok tt →
  opens_ok fs.
Proof. intros H1 H2 H3 H4 []; assumption. Qed.

(** X15.  A reload attempt is all or nothing, whatever the files hold and
    whichever step fails, the opening of a file included: afterwards the
    routes, the record lists and the four indices are either all as they
    were, or all the values of one successful load of the files. *)
Theorem reloadConfig_all_or_nothing (fs : FileSystem) (now : Z) (s : Machine) :
  snapshot (m_app (reloadConfig fs now s).2) = snapshot (m_app s) ∨
  ∃ config,
    loadConfig fs = Ok config ∧
    snapshot (m_app (reloadConfig fs now s).2) = config_snapshot config.
Proof.
  destruct (fs_open fs RoutesFile) as [[]|e1] eqn:H1;
    [|left; unfold reloadConfig, M_bind, open, update; simpl;
      by rewrite H1].
  destruct (fs_open fs UsersFile) as [[]|e2] eqn:H2;
    [|left; unfold reloadConfig, M_bind, open, update; simpl;
      by rewrite H1, H2].
  destruct (fs_open fs RolesFile) as [[]|e3] eqn:H3;
    [|left; unfold reloadConfig, M_bind, open, update; simpl;
      by rewrite H1, H2, H3].
  destruct (fs_open fs TokensFile) as [[]|e4] eqn:H4;
    [|left; unfold reloadConfig, M_bind, open, update; simpl;
      by rewrite H1, H2, H3, H4].
  pose proof (opens_ok_intro fs H1 H2 H3 H4) as Hopen.
  destruct (reloadConfig_cases fs now s Hopen) as [_ Hcases].
  destruct (maxMTime_of fs) as [maxMTime|e].
  - destruct (mtime_unchanged (m_app s) maxMTime).
    + left. apply Hcases.
    + destruct (loadConfig fs) as [config|e].
      * right. exists config. split; [done|]. apply Hcases.
      * left. apply Hcases.
  - left. apply Hcases.
Qed.

(** X16.  Once the four files have been opened, an attempt ends, on
    every path, with the handles it opened closed, [isReloading] cleared,
    [lastReloadTime] set to the current time and [lastReloadErrorTime]
    reset, whether it returns or throws. *)
Theorem reloadConfig_releases (fs : FileSystem) (now : Z) (s : Machine) :
  opens_ok fs →
  m_handles (reloadConfig fs now s).2 = m_handles s ∧
  isReloading (m_app (reloadConfig fs now s).2) = false ∧
  lastReloadTime (m_app (reloadConfig fs now s).2) = Some now ∧
  lastReloadErrorTime (m_app (reloadConfig fs now s).2) = None.
Proof. intros Hopen. apply (reloadConfig_cases fs now s Hopen). Qed.



(** X19.  A reload that installs a configuration under a non-zero maximum
    mtime, followed by another reload of the same files, is a no-op the
    second time: the second attempt returns normally, reads no file, and
    leaves the installed configuration in place. *)
Theorem reloadConfig_twice (fs : FileSystem) (now now2 : Z) (s : Machine)
    (maxMTime : Z) (config : Config) :
  opens_ok fs →
  maxMTime_of fs = Ok maxMTime →
  maxMTime ≠ 0 →
  mtime_unchanged (m_app s) maxMTime = false →
  loadConfig fs = Ok config →
  ∃ s1 s2,
    reloadConfig fs now s = (Ok tt, s1) ∧
    reloadConfig fs now2 s1 = (Ok tt, s2) ∧
    snapshot (m_app s1) = config_snapshot config ∧
    snapshot (m_app s2) = config_snapshot config ∧
    no_read (events_since s1 s2).
Proof.
  intros Hopen Hmax Hnz Hgate Hload.
  destruct (reloadConfig_succeeded fs now s maxMTime config
              Hopen Hmax Hgate Hload) as (s1 & Hrun1 & Hsnap1 & Hrec1 & _).
  destruct (reloadConfig_unchanged fs now2 s1 maxMTime Hopen Hmax Hrec1 Hnz)
    as (s2 & Hrun2 & Hsnap2 & _ & Hevents).
  exists s1, s2. repeat split; try assumption.
  - congruence.
  - rewrite Hevents. by repeat constructor.
Qed.

(** X20.  [start] from a freshly constructed application whose files
    open: it returns, with the ports and the timer of the options, only
    when every [stat] and the whole load succeeded, and the configuration
    served is then the loaded one; it throws the error of the failing
    step otherwise, so the servers never listen without a configuration. *)
Theorem start_requires_load (opts : Defaults) (fs : FileSystem) (now : Z)
    (s : Machine) :
  opens_ok fs →
  lastReloadTime (m_app s) = None →
  lastReloadMTime (m_app s) = None →
  match maxMTime_of fs, loadConfig fs with
  | Ok maxMTime, Ok config =>
      (start opts fs now s).1 =
        Ok {| listen_port := port opts;
              listen_metricsPort := metricsPort opts;
              reload_timer := start_timer opts |} ∧
      snapshot (m_app (start opts fs now s).2) = config_snapshot config ∧
      lastReloadMTime (m_app (start opts fs now s).2) = Some maxMTime
  | Ok _, Throw e | Throw e, _ =>
      (start opts fs now s).1 = Throw e ∧
      snapshot (m_app (start opts fs now s).2) = snapshot (m_app s)
  end.
Proof.
  intros Hopen Htime Hmtime.
  destruct (reloadConfig_cases fs now s Hopen) as [_ Hcases].
  unfold start, M_bind, M_ret.
  assert (Hgate : ∀ t, mtime_unchanged (m_app s) t = false).
  { intros t. unfold mtime_unchanged. by rewrite Hmtime. }
  rewrite Htime in Hcases. simpl in Hcases.
  destruct (reloadConfig fs now s) as [r s'] eqn:Hrun. simpl in *.
  destruct (maxMTime_of fs) as [maxMTime|e].
  - rewrite Hgate in Hcases.
    destruct (loadConfig fs) as [config|e];
      destruct Hcases as (-> & Hsnap & Hrec); simpl; auto.
  - destruct Hcases as (-> & Hsnap & _). simpl. auto.
Qed.

End ReloadExtras.

Section ServedStateFacts.
Context `{RegexEngine}.

Lemma loadConfig_Ok_inv (fs : FileSystem) (config : Config) :
  loadConfig fs = Ok config →
  Forall (fun r => validateRoute r = Ok tt) (cfg_routes config) ∧
  Forall (fun u => validateUser u = Ok tt) (cfg_users config) ∧
  Forall (fun r => validateRole r = Ok tt) (cfg_roles config) ∧
  Forall (fun t => validateToken t = Ok tt) (cfg_tokens config) ∧
  getUserIndex (cfg_users config) = Ok (cfg_userIndex config) ∧
  getRoleIndex (cfg_roles config) = Ok (cfg_roleIndex config) ∧
  getTokenIndex (cfg_tokens config) = Ok (cfg_tokenIndex config) ∧
  getGrantIndex (cfg_userIndex config) (cfg_roleIndex config) =
    Ok (cfg_grantIndex config).
Proof.
  unfold loadConfig.
  destruct (fs_routes fs) as [routesDoc|]; simpl; [|discriminate].
  destruct (require_key _ routesDoc) as [routesList|]; simpl; [|discriminate].
  destruct (forEach validateRoute routesList) as [[]|] eqn:Hr; simpl;
    [|discriminate].
  destruct (fs_users fs) as [usersDoc|]; simpl; [|discriminate].
  destruct (require_key _ usersDoc) as [usersList|]; simpl; [|discriminate].
  destruct (forEach validateUser usersList) as [[]|] eqn:Hu; simpl;
    [|discriminate].
  destruct (getUserIndex usersList) as [userIdx|] eqn:Hui; simpl;
    [|discriminate].
  destruct (fs_roles fs) as [rolesDoc|]; simpl; [|discriminate].
  destruct (require_key _ rolesDoc) as [rolesList|]; simpl; [|discriminate].
  destruct (forEach validateRole rolesList) as [[]|] eqn:Hro; simpl;
    [|discriminate].
  destruct (getRoleIndex rolesList) as [roleIdx|] eqn:Hri; simpl;
    [|discriminate].
  destruct (fs_tokens fs) as [tokensDoc|]; simpl; [|discriminate].
  destruct (require_key _ tokensDoc) as [tokensList|]; simpl; [|discriminate].
  destruct (forEach validateToken tokensList) as [[]|] eqn:Ht; simpl;
    [|discriminate].
  destruct (getTokenIndex tokensList) as [tokenIdx|] eqn:Hti; simpl;
    [|discriminate].
  destruct (getGrantIndex userIdx roleIdx) as [grantIdx|] eqn:Hgi; simpl;
    [|discriminate].
  intros [= <-]. simpl.
  apply forEach_Ok in Hr, Hu, Hro, Ht. by repeat split.
Qed.

Lemma valid_app_snapshot (a b : App) :
  snapshot a = snapshot b → valid_app a → valid_app b.
Proof.
  unfold snapshot. intros [= Hr _ _ _ Hti Hri Hui Hgi].
  intros (rs & ti & ui & ri & gi & H1 & H2 & H3 & H4 & H5 & H6 & H7).
  exists rs, ti, ui, ri, gi. repeat split; congruence.
Qed.

(** X21.  The state the dispatcher relies on (validated routes, all four
    indices present, the grant index built from the user and role
    indices) is installed by every successful load and is kept by every
    reload attempt, whatever the files hold and however the attempt
    ends. *)
Theorem reloadConfig_keeps_valid (fs : FileSystem) (now : Z) (s : Machine) :
  (∀ config a, loadConfig fs = Ok config → valid_app (install config a))
  ∧
  (valid_app (m_app s) → valid_app (m_app (reloadConfig fs now s).2)).
Proof.
  assert (Hinstall : ∀ config a,
            loadConfig fs = Ok config → valid_app (install config a)).
  { intros config a Hload.
    destruct (loadConfig_Ok_inv fs config Hload)
      as (Hr & _ & _ & _ & _ & _ & _ & Hgi).
    exists (cfg_routes config), (cfg_tokenIndex config),
      (cfg_userIndex config), (cfg_roleIndex config), (cfg_grantIndex config).
    by repeat split. }
  split; [exact Hinstall|].
  intros Hvalid.
  destruct (fs_open fs RoutesFile) as [[]|e1] eqn:H1;
    [|unfold reloadConfig, M_bind, open, update; simpl; rewrite H1;
      by apply (valid_app_snapshot (m_app s))].
  destruct (fs_open fs UsersFile) as [[]|e2] eqn:H2;
    [|unfold reloadConfig, M_bind, open, update; simpl; rewrite H1, H2;
      by apply (valid_app_snapshot (m_app s))].
  destruct (fs_open fs RolesFile) as [[]|e3] eqn:H3;
    [|unfold reloadConfig, M_bind, open, update; simpl; rewrite H1, H2, H3;
      by apply (valid_app_snapshot (m_app s))].
  destruct (fs_open fs TokensFile) as [[]|e4] eqn:H4;
    [|unfold reloadConfig, M_bind, open, update; simpl;
      rewrite H1, H2, H3, H4; by apply (valid_app_snapshot (m_app s))].
  pose proof (opens_ok_intro fs H1 H2 H3 H4) as Hopen.
  destruct (reloadConfig_cases fs now s Hopen) as [_ Hcases].
  assert (Hsame : snapshot (m_app (reloadConfig fs now s).2) =
                    snapshot (m_app s) →
                  valid_app (m_app (reloadConfig fs now s).2)).
  { intros Heq. by apply (valid_app_snapshot (m_app s)). }
  destruct (maxMTime_of fs) as [maxMTime|e]; [|apply Hsame, Hcases].
  destruct (mtime_unchanged (m_app s) maxMTime); [apply Hsame, Hcases|].
  destruct (loadConfig fs) as [config|e] eqn:Hload; [|apply Hsame, Hcases].
  destruct Hcases as (_ & Hsnap & _).
  apply (valid_app_snapshot (install config (m_app s)));
    [by rewrite snapshot_install|by apply Hinstall].
Qed.

End ServedStateFacts.

(** ** Options *)

Lemma Z_land_lor_absorb (a b : Z) : Z.land (Z.lor a b) b = b.
Proof.
  apply Z.bits_inj'. intros n _. rewrite Z.land_spec, Z.lor_spec.
  destruct (Z.testbit a n), (Z.testbit b n); reflexivity.
Qed.

Lemma Z_lor_land_absorb (a b : Z) : Z.lor a (Z.land a b) = a.
Proof.
  apply Z.bits_inj'. intros n _. rewrite Z.lor_spec, Z.land_spec.
  destruct (Z.testbit a n), (Z.testbit b n); reflexivity.
Qed.

Lemma ToInt32_small (n : Z) : 0 ≤ n < 2 ^ 31 → ToInt32 (Num n) = n.
Proof.
  intros Hn. unfold ToInt32.
  rewrite Z.mod_small by lia.
  destruct (2 ^ 31 <=? n) eqn:Hle; [|reflexivity].
  apply Z.leb_le in Hle. lia.
Qed.

(** X22.  For every environment the delay of the reload timer is at
    least 1000 ms whenever a timer is set.  With [RELOAD_INTERVAL_MS]
    unset the delay is 15000; set to a string of digits whose value is
    zero (the empty string included) no timer is set; set to a string of
    digits with a positive value, the delay is that value, raised to 1000
    if smaller. *)
Theorem start_timer_of_env (env : gmap string string) :
  (∀ delay, start_timer (defaults env) = Some delay → 1000 ≤ delay)
  ∧
  (env !! "RELOAD_INTERVAL_MS" = None →
   start_timer (defaults env) = Some 15000)
  ∧
  (∀ value, env !! "RELOAD_INTERVAL_MS" = Some value →
     StringToNumber value = Num 0 →
     start_timer (defaults env) = None)
  ∧
  (∀ value n, env !! "RELOAD_INTERVAL_MS" = Some value →
     StringToNumber value = Num n → 0 < n < 2 ^ 53 →
     start_timer (defaults env) = Some (Z.max n 1000)).
Proof.
  split; [|split; [|split]].
  - intros delay. unfold start_timer.
    destruct (0 <? reloadIntervalMs (defaults env)); [|discriminate].
    intros [= <-]. lia.
  - intros Hunset. unfold start_timer, defaults, has_key. simpl.
    by rewrite Hunset.
  - intros value Hset Hnum. unfold start_timer, defaults, has_key. simpl.
    rewrite Hset. simpl. by rewrite Hnum.
  - intros value n Hset Hnum Hpos. unfold start_timer, defaults, has_key.
    simpl. rewrite Hset. simpl. rewrite Hnum. simpl.
    destruct (n =? 0) eqn:Hz; [apply Z.eqb_eq in Hz; lia|].
    destruct (0 <? n) eqn:Hlt; [done|]. apply Z.ltb_ge in Hlt. lia.
Qed.

(** X23.  The proxy port is never [0]: it is the value of [HTTP_PORT]
    when that is a string of digits with a non-zero value, and [8080] when
    the variable is unset or is a string of digits whose value is zero. *)
Theorem start_port_of_env (env : gmap string string) :
  start_port env ≠ 0
  ∧
  (∀ value n, env !! "HTTP_PORT" = Some value →
     StringToNumber value = Num n → 0 < n < 2 ^ 53 → start_port env = n)
  ∧
  (env !! "HTTP_PORT" = None ∨
   (∃ value, env !! "HTTP_PORT" = Some value ∧ StringToNumber value = Num 0) →
   start_port env = 8080).
Proof.
  unfold start_port, defaults. simpl. split; [|split].
  - unfold logical_or. destruct (unary_plus (env !! "HTTP_PORT")) as [|z];
      [done|].
    destruct (z =? 0) eqn:Hz; [done|]. by apply Z.eqb_neq in Hz.
  - intros value n Hset Hnum Hn. rewrite Hset. simpl. rewrite Hnum. simpl.
    destruct (n =? 0) eqn:Hz; [apply Z.eqb_eq in Hz; lia|done].
  - intros [-> | (value & -> & Hnum)]; [done|]. simpl. by rewrite Hnum.
Qed.

(** X24.  For every environment the metrics port has every bit of 8181
    set.  When [METRICS_PORT] is a string of digits with a value below
    [2^31], the metrics port is that value exactly when the value itself
    has every bit of 8181 set. *)
Theorem start_metricsPort_bits (env : gmap string string) :
  Z.land (start_metricsPort env) 8181 = 8181
  ∧
  (∀ value n, env !! "METRICS_PORT" = Some value →
     StringToNumber value = Num n → 0 ≤ n < 2 ^ 31 →
     (start_metricsPort env = n ↔ Z.land n 8181 = 8181)).
Proof.
  assert (Hport : start_metricsPort env =
                  Z.lor (ToInt32 (unary_plus (env !! "METRICS_PORT"))) 8181)
    by reflexivity.
  rewrite Hport. split.
  - apply Z_land_lor_absorb.
  - intros value n Hset Hnum Hn. rewrite Hset. unfold unary_plus.
    rewrite Hnum, (ToInt32_small n Hn). split.
    + intros Heq. rewrite <- Heq at 1. apply Z_land_lor_absorb.
    + intros Heq. rewrite <- Heq at 1. apply Z_lor_land_absorb.
Qed.

(** ** The further examples, evaluated *)

Lemma reloadConfig_releases_witness :
  m_handles (@reloadConfig PrefixEngine (fs_bad_routes 6) 2000
               (machine_loaded 5 1000 [token_john; token_alice])).2 =
    m_handles (machine_loaded 5 1000 [token_john; token_alice]) ∧
  isReloading (m_app (@reloadConfig PrefixEngine (fs_bad_routes 6) 2000
               (machine_loaded 5 1000 [token_john; token_alice])).2) = false ∧
  lastReloadTime (m_app (@reloadConfig PrefixEngine (fs_bad_routes 6) 2000
               (machine_loaded 5 1000 [token_john; token_alice])).2) = Some 2000 ∧
  lastReloadErrorTime (m_app (@reloadConfig PrefixEngine (fs_bad_routes 6) 2000
               (machine_loaded 5 1000 [token_john; token_alice])).2) = None.
Proof.
  apply (@reloadConfig_releases PrefixEngine (fs_bad_routes 6) 2000
           (machine_loaded 5 1000 [token_john; token_alice])).
  intros f. reflexivity.
Defined.



Lemma reloadConfig_twice_witness :
  ∃ s1 s2,
    @reloadConfig PrefixEngine
      (fs_valid 7 [token_john; token_alice; token_jeff]) 2000
      (machine_loaded 5 1000 [token_john; token_alice]) = (Ok tt, s1) ∧
    @reloadConfig PrefixEngine
      (fs_valid 7 [token_john; token_alice; token_jeff]) 3000 s1 = (Ok tt, s2) ∧
    snapshot (m_app s1) = config_snapshot config_jeff ∧
    snapshot (m_app s2) = config_snapshot config_jeff ∧
    no_read (events_since s1 s2).
Proof.
  apply (@reloadConfig_twice PrefixEngine
           (fs_valid 7 [token_john; token_alice; token_jeff]) 2000 3000
           (machine_loaded 5 1000 [token_john; token_alice]) 7 config_jeff).
  - intros f. reflexivity.
  - reflexivity.
  - lia.
  - vm_compute. reflexivity.
  - vm_compute. reflexivity.
Defined.

Lemma start_requires_load_witness :
  match maxMTime_of (fs_valid 5 [token_john; token_alice; token_jeff]),
        @loadConfig PrefixEngine (fs_valid 5 [token_john; token_alice; token_jeff])
  with
  | Ok maxMTime, Ok config =>
      (@start PrefixEngine (defaults ∅)
         (fs_valid 5 [token_john; token_alice; token_jeff]) 1000 machine_new).1 =
        Ok {| listen_port := port (defaults ∅);
              listen_metricsPort := metricsPort (defaults ∅);
              reload_timer := start_timer (defaults ∅) |} ∧
      snapshot (m_app (@start PrefixEngine (defaults ∅)
         (fs_valid 5 [token_john; token_alice; token_jeff]) 1000 machine_new).2) =
        config_snapshot config ∧
      lastReloadMTime (m_app (@start PrefixEngine (defaults ∅)
         (fs_valid 5 [token_john; token_alice; token_jeff]) 1000 machine_new).2) =
        Some maxMTime
  | Ok _, Throw e | Throw e, _ =>
      (@start PrefixEngine (defaults ∅)
         (fs_valid 5 [token_john; token_alice; token_jeff]) 1000 machine_new).1 =
        Throw e ∧
      snapshot (m_app (@start PrefixEngine (defaults ∅)
         (fs_valid 5 [token_john; token_alice; token_jeff]) 1000 machine_new).2) =
        snapshot (m_app machine_new)
  end.
Proof.
  apply (@start_requires_load PrefixEngine (defaults ∅)
           (fs_valid 5 [token_john; token_alice; token_jeff]) 1000 machine_new).
  - intros f. reflexivity.
  - reflexivity.
  - reflexivity.
Defined.
